(** * Sequelize grant generator: the usage parser, embedded and verified

    A shallow embedding of [src/parser.ts], [src/helpers.ts] and
    [src/types/parser.dto.ts].  The parser walks the syntax forest of a
    TypeScript project and accumulates, per Sequelize model, the CRUD
    operations the code performs ([foundModels]).

    Conventions of the embedding:
    - a JavaScript object used as an ordered dictionary ([foundModels],
      [model.associations], [SequelizeDefaultWriteMethodsRecord]) is an
      association list in insertion order, which is also the order of
      [Object.keys] for keys that are not array indices;
    - the registry [availableModels] is only ever read by key: a [gmap];
    - of an object only its own properties are modelled: a lookup
      [o[k]] is a lookup among the own keys of [o].  On an object
      literal JavaScript also finds the members of [Object.prototype]
      ([constructor], [toString], [hasOwnProperty], ...) under their
      names; lookups under those names are outside the embedding, for
      the registry, for [foundModels] and for [model.associations]
      alike;
    - a reference to a usage record is the key under which [foundModels]
      holds it (every record object is reachable through exactly one key
      and is never replaced), so writes through one reference are seen
      through every alias;
    - [console.warn]/[console.error] append to a diagnostic log, a thrown
      exception ends the computation and keeps the state reached so far;
    - the TypeScript compiler API is an interface: nodes expose their kind,
      text and children, the type checker is a function from nodes to
      types.  Source locations in diagnostics are left out. *)

From stdpp Require Import base decidable option list strings gmap.

Local Open Scope string_scope.
Local Open Scope list_scope.

(** ** Ordered dictionaries (own string-keyed properties of an object) *)

Module Dict.
Section WithValue.
Context {V : Type}.

Definition t := list (string * V).

(** [o[k]] *)
Fixpoint get (k : string) (o : list (string * V)) : option V :=
  match o with
  | [] => None
  | (k', v) :: o' => if decide (k = k') then Some v else get k o'
  end.

(** [Object.keys(o)] and [Object.values(o)] *)
Definition keys (o : list (string * V)) : list string := map fst o.
Definition values (o : list (string * V)) : list V := map snd o.

(** In-place update of the value held under [k] (a field write through
    a reference to that value). *)
Fixpoint alter (f : V -> V) (k : string) (o : list (string * V))
  : list (string * V) :=
  match o with
  | [] => []
  | (k', v) :: o' =>
      if decide (k = k') then (k', f v) :: o' else (k', v) :: alter f k o'
  end.

(** [o[k] = v] for a key that [o] does not hold yet. *)
Definition add (k : string) (v : V) (o : list (string * V))
  : list (string * V) := o ++ [(k, v)].
End WithValue.
Arguments t : clear implicits.
End Dict.

(** ** types/parser.dto.ts *)

Record SequelizeParserModelOperations := mkOps {
  table : string;
  isSelect : bool;
  isInsert : bool;
  isUpdate : bool;
  isDelete : bool;
}.

Definition SequelizeFoundModelsRecord := Dict.t SequelizeParserModelOperations.

Record SequelizeParserOptions := mkOptions {
  tsConfigName : option string;
  onlyFromSpecificModuleImport : option string;
}.

Inductive SequelizeWriteOperationType := INSERT | UPDATE | DELETE.

#[global] Instance SequelizeWriteOperationType_eq_dec :
  EqDecision SequelizeWriteOperationType.
Proof. solve_decision. Defined.

#[global] Instance SequelizeParserModelOperations_eq_dec :
  EqDecision SequelizeParserModelOperations.
Proof. solve_decision. Defined.

(** ** What the parser reads of Sequelize's model classes *)

(** [model.getTableName()] is a string or a schema-qualified object. *)
Inductive TableName :=
  | TableString (s : string)
  | TableObject (schema tableName delimiter : string).

(** A model class as far as the parser dereferences it through a
    reference ([association.target], [association.source]). *)
Record ModelRef := mkRef {
  name : string;
  getTableName : TableName;
}.

Inductive AssociationType := BelongsTo | HasOne | HasMany | BelongsToMany.

#[global] Instance AssociationType_eq_dec : EqDecision AssociationType.
Proof. solve_decision. Defined.

(** [BelongsToManyOptions.through : ModelType | string | ThroughOptions]. *)
Inductive Through :=
  | ThroughString (s : string)
  | ThroughModel (m : ModelRef)
  | ThroughOptionsString (s : string)     (* { model: 'Name' } *)
  | ThroughOptionsModel (m : ModelRef)    (* { model: Class } *)
  | ThroughOptionsInvalid.                (* an object without a usable model *)

Record Association := mkAssociation {
  associationType : AssociationType;
  source : ModelRef;
  target : ModelRef;
  through : option Through;               (* options.through *)
}.

(** An entry of [availableModels]: the class and its [associations]. *)
Record ModelStatic := mkModel {
  self : ModelRef;
  associations : Dict.t Association;
}.

Definition SequelizeParserAvailableModelsRecord := gmap string ModelStatic.

(** ** The compiler API as the parser uses it *)

Inductive TokenKind :=
  | Identifier | PrivateIdentifier | StringLiteral | ThisKeyword
  | DotToken | QuestionDotToken | OpenBracketToken | CloseBracketToken
  | OpenParenToken | CloseParenToken | CommaToken | OtherToken.

Inductive NodeKind :=
  | PropertyAccessExpression | ElementAccessExpression | SyntaxList
  | OtherNode.

#[global] Instance TokenKind_eq_dec : EqDecision TokenKind.
Proof. solve_decision. Defined.

Record ImportSpecifier := mkImportSpecifier {
  propertyName : option string;           (* [Original as Local] *)
  importName : string;
}.

Inductive NamedBindings :=
  | NoNamedBindings
  | NamespaceImport (alias : string)
  | NamedImports (elements : list ImportSpecifier).

(** Tokens carry their source text; the children of a syntax node are the
    ones [getChildren] returns, punctuation included. *)
#[warnings="-register-all"]
Inductive Node :=
  | Token (kind : TokenKind) (text : string)
  | CallExpression (expression : Node) (arguments : list Node)
  | ImportDeclaration (moduleSpecifier : Node) (namedBindings : NamedBindings)
  | Syntax (kind : NodeKind) (children : list Node).

Definition isIdentifier (n : Node) : bool :=
  match n with Token Identifier _ => true | _ => false end.

Definition isStringLiteral (n : Node) : bool :=
  match n with Token StringLiteral _ => true | _ => false end.

Definition isCallExpression (n : Node) : bool :=
  match n with CallExpression _ _ => true | _ => false end.

Fixpoint intersperse (sep : Node) (l : list Node) : list Node :=
  match l with
  | [] => []
  | [x] => [x]
  | x :: l' => x :: sep :: intersperse sep l'
  end.

(** [node.getChildren()] *)
Definition getChildren (n : Node) : list Node :=
  match n with
  | Token _ _ => []
  | CallExpression e args =>
      [e; Token OpenParenToken "(";
       Syntax SyntaxList (intersperse (Token CommaToken ",") args);
       Token CloseParenToken ")"]
  | ImportDeclaration spec _ => [Token OtherToken "import"; spec]
  | Syntax _ cs => cs
  end.

Definition getChildCount (n : Node) : nat := length (getChildren n).
Definition getChildAt (n : Node) (i : nat) : option Node := getChildren n !! i.

(** [node.getText()], trivia dropped. *)
Fixpoint getText (n : Node) : string :=
  match n with
  | Token _ s => s
  | CallExpression e args =>
      getText e +:+ "(" +:+
      (fix join (l : list Node) : string :=
         match l with
         | [] => EmptyString
         | x :: l' =>
             getText x +:+
             match l' with [] => EmptyString | _ => "," +:+ join l' end
         end) args +:+ ")"
  | ImportDeclaration spec _ => "import " +:+ getText spec
  | Syntax _ cs =>
      (fix cat (l : list Node) : string :=
         match l with
         | [] => EmptyString
         | x :: l' => getText x +:+ cat l'
         end) cs
  end.

(** The [text] property of a string literal: the source text without its
    quotes (the value of a literal that has no escape sequence; escape
    sequences are not decoded). *)
Definition literalText (raw : string) : string :=
  String.substring 1 (String.length raw - 2) raw.

(** [node.getFirstToken()]: undefined on a token and on a node without
    children, else the leftmost token below the node. *)
Fixpoint getFirstToken (n : Node) : option Node :=
  let descend (c : Node) : option Node :=
    match c with
    | Token _ _ => Some c
    | _ => getFirstToken c
    end in
  match n with
  | Token _ _ => None
  | CallExpression e _ => descend e
  | ImportDeclaration _ _ => Some (Token OtherToken "import")
  | Syntax _ [] => None
  | Syntax _ (c :: _) => descend c
  end.

(** The children the compiler API gives the three member-access callees:
    [receiver.method], [receiver?.method] and [receiver[argument]]. *)
Definition propertyAccess (receiver : Node) (method : string) : Node :=
  Syntax PropertyAccessExpression
    [receiver; Token DotToken "."; Token Identifier method].

Definition propertyAccessChain (receiver : Node) (method : string) : Node :=
  Syntax PropertyAccessExpression
    [receiver; Token QuestionDotToken "?."; Token Identifier method].

Definition elementAccess (receiver argument : Node) : Node :=
  Syntax ElementAccessExpression
    [receiver; Token OpenBracketToken "["; argument;
     Token CloseBracketToken "]"].

(** Static types as the resolver inspects them. *)
Inductive HeritageExpression :=
  | HeritageCall (arguments : list string)   (* texts of the call's arguments *)
  | HeritageIdentifier (text : string)
  | HeritageOther.

Record ExpressionWithTypeArguments := mkHeritageType {
  typeArguments : list string;              (* texts; absent = [] *)
  heritageExpression : HeritageExpression;
}.

(** A heritage clause is the list of its types. *)
Inductive Declaration :=
  | InterfaceDeclaration
      (heritageClauses : list (list ExpressionWithTypeArguments))
  | ClassDeclaration (heritageClauses : list (list ExpressionWithTypeArguments))
  | MappedTypeNode
  | OtherDeclaration.

Record TsSymbol := mkSymbol {
  getName : string;
  getDeclarations : list Declaration;
}.

Record TsType := mkType {
  getSymbol : option TsSymbol;
  typeToString : string;
}.

Record SourceFile := mkSourceFile {
  isDeclarationFile : bool;
  statements : list Node;
}.

(** ** State and control *)

(** One constructor per [console.warn]/[console.error] site. *)
Inductive Diagnostic :=
  | NotDefaultWriteMethod (method : string)
  | AssociationNameNotLiteral (model method argument : string)
  | AssociationNotFound (association model : string)
  | TargetModelNotFound (targetName association model : string)
  | NotGeneratedWriteMethod (method : string)
  | HeritageClauseUndetermined (node : string)
  | MappedTypeUndetermined (node : string)
  | ModelNotFound (node type : string)
  | ThroughModelNotFound (throughName : string) (kind : AssociationType)
                         (sourceName : string)
  | InvalidThroughModel.

Inductive Exception :=
  | Error (message : string)
  | TypeError (message : string).

Record ParserState := mkState {
  foundModels : SequelizeFoundModelsRecord;
  console : list Diagnostic;
}.

Inductive Outcome (A : Type) :=
  | Return (a : A) (st : ParserState)
  | Throw (e : Exception) (st : ParserState).
Arguments Return {A} a st.
Arguments Throw {A} e st.

Definition finalState {A} (o : Outcome A) : ParserState :=
  match o with Return _ st => st | Throw _ st => st end.

Definition returns {A} (o : Outcome A) : bool :=
  match o with Return _ _ => true | Throw _ _ => false end.

Definition M (A : Type) : Type := ParserState -> Outcome A.

Definition ret {A} (a : A) : M A := fun st => Return a st.

Definition bind {A B} (m : M A) (k : A -> M B) : M B :=
  fun st =>
    match m st with
    | Return a st' => k a st'
    | Throw e st' => Throw e st'
    end.

Definition throw {A} (e : Exception) : M A := fun st => Throw e st.

Notation "'let*' x ':=' m 'in' k" := (bind m (fun x => k))
  (at level 10, x binder, m at level 100, k at level 200).

Definition log (d : Diagnostic) : M unit :=
  fun st => Return tt (mkState (foundModels st) (console st ++ [d])).

Definition getFoundModels : M SequelizeFoundModelsRecord :=
  fun st => Return (foundModels st) st.

Definition modifyFoundModels
    (f : SequelizeFoundModelsRecord -> SequelizeFoundModelsRecord) : M unit :=
  fun st => Return tt (mkState (f (foundModels st)) (console st)).

Section ForEach.
Context {A : Type} (f : A -> M unit).

(** [l.forEach(f)] *)
Fixpoint forEach (l : list A) : M unit :=
  match l with
  | [] => ret tt
  | x :: l' => let* _ := f x in forEach l'
  end.
End ForEach.

(** [l.some(f)] for a callback that records the model it finds: the first
    element for which [f] finds one ends the scan. *)
Section FirstFound.
Context {A B : Type} (f : A -> M (option B)).

Fixpoint firstFound (l : list A) : M (option B) :=
  match l with
  | [] => ret None
  | x :: l' =>
      let* r := f x in
      match r with
      | Some b => ret (Some b)
      | None => firstFound l'
      end
  end.
End FirstFound.

(** Field writes and reads through a reference to a usage record.  No
    record is ever removed, so a reference is never dangling; the default
    of [readFlag] is not reachable. *)
Definition setInsert (r : SequelizeParserModelOperations) :=
  mkOps (table r) (isSelect r) true (isUpdate r) (isDelete r).
Definition setUpdate (r : SequelizeParserModelOperations) :=
  mkOps (table r) (isSelect r) (isInsert r) true (isDelete r).
Definition setDelete (r : SequelizeParserModelOperations) :=
  mkOps (table r) (isSelect r) (isInsert r) (isUpdate r) true.

Definition writeField
    (set : SequelizeParserModelOperations -> SequelizeParserModelOperations)
    (ref : string) : M unit :=
  modifyFoundModels (Dict.alter set ref).

Definition readFlag (flag : SequelizeParserModelOperations -> bool)
    (ref : string) : M bool :=
  fun st => Return (from_option flag false (Dict.get ref (foundModels st))) st.

(** A field write on a value that may be [undefined]. *)
Definition writeFieldOrThrow
    (set : SequelizeParserModelOperations -> SequelizeParserModelOperations)
    (ref : option string) : M unit :=
  match ref with
  | Some r => writeField set r
  | None => throw (TypeError "Cannot set properties of undefined")
  end.

(** The first element on which [f] answers. *)
Fixpoint firstSome {A B} (f : A -> option B) (l : list A) : option B :=
  match l with
  | [] => None
  | x :: l' => match f x with Some b => Some b | None => firstSome f l' end
  end.

(** JavaScript truthiness of a string. *)
Definition truthy (s : string) : bool := bool_decide (s <> EmptyString).

(** ** helpers.ts *)

Definition getSequelizeModelTableName (model : ModelRef) : string :=
  match getTableName model with
  | TableString s => s
  | TableObject schema tableName delimiter =>
      schema +:+ delimiter +:+ tableName
  end.

Definition SequelizeDefaultWriteMethodsRecord
  : Dict.t (list SequelizeWriteOperationType) :=
  [ ("build", [INSERT]);
    ("bulkCreate", [INSERT]);
    ("create", [INSERT]);
    ("findCreateFind", [INSERT]);
    ("findOrBuild", [INSERT]);
    ("findOrCreate", [INSERT]);
    ("bulkUpdate", [UPDATE]);
    ("decrement", [UPDATE]);
    ("increment", [UPDATE]);
    ("restore", [UPDATE]);
    ("save", [UPDATE]);
    ("set", [UPDATE]);
    ("update", [UPDATE]);
    ("upsert", [INSERT; UPDATE]);
    ("destroy", [DELETE]) ].

Definition SequelizeTypescriptGeneratedWriteMixins : list string :=
  [ "$add"; "$create"; "$set"; "$remove" ].

Definition isSequelizeTypescriptGeneratedWriteMethod (method : string) : bool :=
  bool_decide (method ∈ SequelizeTypescriptGeneratedWriteMixins).

Definition isSequelizeModelWriteMethod (method : string) : bool :=
  bool_decide (method ∈ Dict.keys SequelizeDefaultWriteMethodsRecord)
  || isSequelizeTypescriptGeneratedWriteMethod method.

(** Every value the embedding admits as a model class is a Sequelize
    model, so [isSequelizeModel] holds of [ThroughModel] and
    [ThroughOptionsModel]. *)
Definition getSequelizeModelNameFromThroughModel (throughModel : Through)
  : M (option string) :=
  match throughModel with
  | ThroughString s => ret (Some s)
  | ThroughModel m => ret (Some (name m))
  | ThroughOptionsString s =>
      if truthy s then ret (Some s)
      else let* _ := log InvalidThroughModel in ret None
  | ThroughOptionsModel m => ret (Some (name m))
  | ThroughOptionsInvalid => let* _ := log InvalidThroughModel in ret None
  end.

(** [!options.through] *)
Definition throughIsFalsy (t : option Through) : bool :=
  match t with
  | None => true
  | Some (ThroughString s) => negb (truthy s)
  | Some _ => false
  end.

(** ** parser.ts *)

(** The immutable part of a [SequelizeParser]; [foundModels] is the
    mutable part and lives in [ParserState]. *)
Record SequelizeParser := mkParser {
  availableModels : gmap string ModelStatic;
  options : SequelizeParserOptions;
  getTypeAtLocation : Node -> TsType;       (* this.checker *)
  getSourceFiles : list SourceFile;         (* this.program *)
}.

Definition newModelOperations (model : ModelRef)
  : SequelizeParserModelOperations :=
  mkOps (getSequelizeModelTableName model) true false false false.

Section Parser.
Context (this : SequelizeParser).

(** Returns the reference to the record of [model], creating the record
    when there is none. *)
Definition getOrCreateModelOperations (model : ModelRef) : M string :=
  let* found := getFoundModels in
  match Dict.get (name model) found with
  | None =>
      let* _ := modifyFoundModels
                  (Dict.add (name model) (newModelOperations model)) in
      ret (name model)
  | Some _ => ret (name model)
  end.

Definition getThroughModelOperations (association : Association)
  : M (option string) :=
  if negb (bool_decide (associationType association = BelongsToMany))
  then ret None
  else if throughIsFalsy (through association) then ret None
  else
    match through association with
    | None => ret None
    | Some t =>
        let* throughModelName := getSequelizeModelNameFromThroughModel t in
        match throughModelName with
        | None => ret None
        | Some throughModelName =>
            if negb (truthy throughModelName) then ret None
            else
              match availableModels this !! throughModelName with
              | None =>
                  let* _ := log (ThroughModelNotFound throughModelName
                                   (associationType association)
                                   (name (source association))) in
                  ret None
              | Some throughModel =>
                  let* r := getOrCreateModelOperations (self throughModel) in
                  ret (Some r)
              end
        end
    end.

Definition processImportDeclarationNode
    (moduleSpecifier : Node) (bindings : NamedBindings) : M unit :=
  let otherModule :=
    match onlyFromSpecificModuleImport (options this), moduleSpecifier with
    | Some only, Token StringLiteral raw =>
        bool_decide (literalText raw <> only)
    | _, _ => false
    end in
  if otherModule then ret tt
  else
    let namedImports :=
      match bindings with
      | NamedImports elements => elements
      | _ => []
      end in
    forEach
      (fun specifier =>
         match availableModels this
                 !! default (importName specifier) (propertyName specifier)
         with
         | None => ret tt
         | Some model =>
             let* found := getFoundModels in
             match Dict.get (name (self model)) found with
             | Some _ => ret tt
             | None =>
                 modifyFoundModels
                   (Dict.add (name (self model))
                      (newModelOperations (self model)))
             end
         end)
      namedImports.

Definition processModelWriteMethod (model : ModelStatic) (method : string)
  : M unit :=
  if isSequelizeTypescriptGeneratedWriteMethod method then ret tt
  else
    match Dict.get method SequelizeDefaultWriteMethodsRecord with
    | None => log (NotDefaultWriteMethod method)
    | Some operations =>
        let* modelOperations := getOrCreateModelOperations (self model) in
        forEach
          (fun op =>
             match op with
             | INSERT => writeField setInsert modelOperations
             | UPDATE => writeField setUpdate modelOperations
             | DELETE => writeField setDelete modelOperations
             end)
          operations
    end.

Definition processModelTypescriptMixins
    (sourceModel : ModelStatic) (method : string) (args : list Node)
  : M unit :=
  if negb (isSequelizeTypescriptGeneratedWriteMethod method) then ret tt
  else
    match args with
    | associationNameExp :: _ :: _ =>
        match associationNameExp with
        | Token StringLiteral raw =>
            let text := literalText raw in
            match Dict.get text (associations sourceModel) with
            | None =>
                log (AssociationNotFound text (name (self sourceModel)))
            | Some association =>
                match availableModels this !! name (target association) with
                | None =>
                    log (TargetModelNotFound (name (target association))
                           text (name (self sourceModel)))
                | Some _ =>
                    let* targetModelOperations :=
                      getOrCreateModelOperations (target association) in
                    let* throughModelOperations :=
                      getThroughModelOperations association in
                    if decide (method = "$add") then
                      match throughModelOperations with
                      | Some t => writeField setInsert t
                      | None => writeField setUpdate targetModelOperations
                      end
                    else if decide (method = "$create") then
                      let* _ := writeField setInsert targetModelOperations in
                      match throughModelOperations with
                      | Some t => writeField setInsert t
                      | None => ret tt
                      end
                    else if decide (method = "$set") then
                      match throughModelOperations with
                      | Some t =>
                          let* _ := writeField setInsert t in
                          let* _ := writeField setUpdate t in
                          writeField setDelete t
                      | None => writeField setUpdate targetModelOperations
                      end
                    else if decide (method = "$remove") then
                      match throughModelOperations with
                      | Some t => writeField setDelete t
                      | None => writeField setUpdate targetModelOperations
                      end
                    else log (NotGeneratedWriteMethod method)
                end
            end
        | _ =>
            log (AssociationNameNotLiteral (name (self sourceModel)) method
                   (getText associationNameExp))
        end
    | _ => ret tt                          (* args.length < 2 *)
    end.

(** The body of the inner loop of [addHiddenManyToManyModels]. *)
Definition addHiddenManyToManyModel (association : Association) : M unit :=
  if negb (bool_decide (associationType association = BelongsToMany))
  then ret tt
  else
    let* found := getFoundModels in
    match Dict.get (name (target association)) found with
    | None => ret tt
    | Some _ =>
        let targetModelOperations := name (target association) in
        let* throughModelOperations :=
          getThroughModelOperations association in
        let* ins := readFlag isInsert targetModelOperations in
        let* _ := if ins
                  then writeFieldOrThrow setInsert throughModelOperations
                  else ret tt in
        let* upd := readFlag isUpdate targetModelOperations in
        let* _ := if upd
                  then writeFieldOrThrow setUpdate throughModelOperations
                  else ret tt in
        let* del := readFlag isDelete targetModelOperations in
        if del
        then writeFieldOrThrow setDelete throughModelOperations
        else ret tt
    end.

Definition addHiddenManyToManyModels : M unit :=
  let* found := getFoundModels in
  forEach
    (fun modelName =>
       match availableModels this !! modelName with
       | None =>
           throw (TypeError "Cannot read properties of undefined")
       | Some model =>
           forEach addHiddenManyToManyModel
             (Dict.values (associations model))
       end)
    (Dict.keys found).

(** One type of a heritage clause: its type arguments first, then its
    base expression. *)
Definition findModelInHeritageType
    (node : Node) (t : ExpressionWithTypeArguments)
  : M (option ModelStatic) :=
  match firstSome
          (fun a => if truthy a then availableModels this !! a else None)
          (typeArguments t)
  with
  | Some model => ret (Some model)
  | None =>
      match heritageExpression t with
      | HeritageCall args =>
          ret (firstSome (fun arg => availableModels this !! arg) args)
      | HeritageIdentifier text =>
          match availableModels this !! text with
          | Some model => ret (Some model)
          | None =>
              let* _ := log (HeritageClauseUndetermined (getText node)) in
              ret None
          end
      | HeritageOther =>
          let* _ := log (HeritageClauseUndetermined (getText node)) in
          ret None
      end
  end.

Definition findModelFromNode (node : Node) : M (option ModelStatic) :=
  match availableModels this !! getText node with
  | Some model => ret (Some model)
  | None =>
      if negb (isIdentifier node) then ret None
      else
        let typeOfVariable := getTypeAtLocation this node in
        (* an absent symbol indexes the registry with [undefined] *)
        match availableModels this
                !! from_option getName "undefined" (getSymbol typeOfVariable)
        with
        | Some model => ret (Some model)
        | None =>
            let* model :=
              firstFound
                (fun declaration =>
                   match declaration with
                   | InterfaceDeclaration heritageClauses
                   | ClassDeclaration heritageClauses =>
                       firstFound
                         (fun h => firstFound (findModelInHeritageType node) h)
                         heritageClauses
                   | MappedTypeNode =>
                       let* _ := log (MappedTypeUndetermined (getText node)) in
                       ret None
                   | OtherDeclaration => ret None
                   end)
                (from_option getDeclarations [] (getSymbol typeOfVariable)) in
            match model with
            | Some model => ret (Some model)
            | None =>
                let* _ := log (ModelNotFound (getText node)
                                 (typeToString typeOfVariable)) in
                ret None
            end
        end
  end.

(** [expression] and [args] are [node.expression] and [node.arguments]
    of the call expression [node]. *)
Definition processCallExpression (expression : Node) (args : list Node)
  : M unit :=
  match getFirstToken expression with
  | None => ret tt
  | Some firstNode =>
      if bool_decide (getChildCount expression < 3) then ret tt
      else
        match getChildAt expression 2 with
        | None => ret tt
        | Some thirdNode =>
            let method := getText thirdNode in
            if negb (truthy method)
               || negb (isIdentifier thirdNode)
               || negb (isSequelizeModelWriteMethod method)
            then ret tt
            else
              let* model := findModelFromNode firstNode in
              match model with
              | None => ret tt
              | Some model =>
                  let* _ := processModelWriteMethod model method in
                  processModelTypescriptMixins model method args
              end
        end
  end.

(** [ts.forEachChild] visits the expression and the arguments of a call
    and the children of any other node; the tokens among them are leaves
    on which the visitor does nothing. *)
Fixpoint nodeVisitor (node : Node) : M unit :=
  match node with
  | ImportDeclaration moduleSpecifier bindings =>
      processImportDeclarationNode moduleSpecifier bindings
  | CallExpression expression args =>
      let* _ := processCallExpression expression args in
      let* _ := nodeVisitor expression in
      forEach nodeVisitor args
  | Syntax _ children => forEach nodeVisitor children
  | Token _ _ => ret tt
  end.

Definition visitAllSourceFiles : M unit :=
  let* _ :=
    forEach
      (fun sourceFile =>
         if isDeclarationFile sourceFile then ret tt
         else forEach nodeVisitor (statements sourceFile))
      (getSourceFiles this) in
  addHiddenManyToManyModels.
End Parser.

(** The compiler host: where the configuration file is, and the program
    (source files and type checker) it describes. *)
Record CompilerHost := mkHost {
  findConfigFile : string -> string -> option string;
  createProgram : string -> string -> list SourceFile * (Node -> TsType);
}.

Definition loadProjectConfig (host : CompilerHost)
    (basePath tsConfigName : string)
  : Exception + list SourceFile * (Node -> TsType) :=
  match findConfigFile host basePath tsConfigName with
  | None =>
      inl (Error ("Could not find a valid '" +:+ tsConfigName +:+ "'."))
  | Some configPath => inr (createProgram host configPath basePath)
  end.

Definition initialState : ParserState := mkState [] [].

Definition getModelsFromSourceFiles (host : CompilerHost) (basePath : string)
    (models : gmap string ModelStatic) (opts : SequelizeParserOptions)
  : Outcome SequelizeFoundModelsRecord :=
  match loadProjectConfig host basePath
          (default "tsconfig.json" (tsConfigName opts)) with
  | inl e => Throw e initialState
  | inr (files, checker) =>
      (let* _ := visitAllSourceFiles (mkParser models opts checker files) in
       getFoundModels) initialState
  end.

(** ** sql_generator.ts and types/sql_generator.dto.ts *)

Record SQLGeneratorOptions := mkSQLOptions {
  clearAllGrants : option bool;
  flushPrivileges : option bool;
  databaseUserHost : option string;
}.

Definition newline : string := String (Ascii.ascii_of_nat 10) EmptyString.

(** JavaScript truthiness of an optional boolean and of an optional
    string. *)
Definition truthyFlag (b : option bool) : bool := default false b.
Definition truthyText (s : option string) : bool :=
  match s with Some s => truthy s | None => false end.

(** The options object once the defaults are written into it. *)
Definition withSQLDefaults (options : SQLGeneratorOptions)
  : SQLGeneratorOptions :=
  mkSQLOptions (clearAllGrants options)
    (match flushPrivileges options with
     | None => Some true
     | Some b => Some b
     end)
    (if truthyText (databaseUserHost options) then databaseUserHost options
     else Some "%").

(** [[isSelect ? "SELECT" : "", ...].filter(Boolean)] *)
Definition permissionsOf (r : SequelizeParserModelOperations) : list string :=
  List.filter truthy
    [ if isSelect r then "SELECT" else EmptyString;
      if isInsert r then "INSERT" else EmptyString;
      if isUpdate r then "UPDATE" else EmptyString;
      if isDelete r then "DELETE" else EmptyString ].

Definition tablePermissions (found : SequelizeFoundModelsRecord)
  : list (string * list string) :=
  map (fun r => (table r, permissionsOf r)) (Dict.values found).

Definition revokeCommand (databaseUsername : string) : string :=
  "REVOKE SELECT, INSERT, UPDATE, DELETE ON *.* FROM '"
  +:+ databaseUsername +:+ "'@'%';".

Definition grantCommand (permission tableName databaseUsername : string)
  : string :=
  "GRANT " +:+ permission +:+ " ON " +:+ tableName +:+ " TO '"
  +:+ databaseUsername +:+ "'@'%';".

Definition flushCommand : string := "FLUSH PRIVILEGES;".

(** The array [grantCommands] when it is joined. *)
Definition grantCommands (found : SequelizeFoundModelsRecord)
    (databaseUsername : string) (options : SQLGeneratorOptions)
  : list string :=
  let options := withSQLDefaults options in
  (if truthyFlag (clearAllGrants options)
   then [revokeCommand databaseUsername] else [])
  ++ concat
       (map (fun tp =>
               map (fun permission =>
                      grantCommand permission (fst tp) databaseUsername)
                   (snd tp))
            (tablePermissions found))
  ++ (if truthyFlag (flushPrivileges options) then [flushCommand] else []).

(** Returns the SQL text; the second component is the caller's options
    object as the function leaves it. *)
Definition generateSQLCommandsFromFoundModels
    (found : SequelizeFoundModelsRecord) (databaseUsername : string)
    (options : SQLGeneratorOptions) : string * SQLGeneratorOptions :=
  (String.concat newline (grantCommands found databaseUsername options),
   withSQLDefaults options).

(** ** parser.ts, the earlier revision: the direct write handler *)

(** [modelOperations] is read once, before the record is created: on an
    entity without a record it stays [undefined]. *)
Definition updateModelFlagBasedOnMethod (model : ModelStatic)
    (method : string) : M unit :=
  if isSequelizeTypescriptGeneratedWriteMethod method then ret tt
  else
    match Dict.get method SequelizeDefaultWriteMethodsRecord with
    | None => log (NotDefaultWriteMethod method)
    | Some operations =>
        let* found := getFoundModels in
        let modelOperations :=
          match Dict.get (name (self model)) found with
          | Some _ => Some (name (self model))
          | None => None
          end in
        let* _ :=
          match modelOperations with
          | None =>
              modifyFoundModels
                (Dict.add (name (self model))
                   (newModelOperations (self model)))
          | Some _ => ret tt
          end in
        forEach
          (fun op =>
             match op with
             | INSERT => writeFieldOrThrow setInsert modelOperations
             | UPDATE => writeFieldOrThrow setUpdate modelOperations
             | DELETE => writeFieldOrThrow setDelete modelOperations
             end)
          operations
    end.

(** * Specification-level definitions *)

(** [stable R m]: whatever [m] does, and whether it returns or throws, the
    state it ends in is [R]-related to the state it started from. *)
Definition stable (R : relation ParserState) {A} (m : M A) : Prop :=
  forall st, R st (finalState (m st)).

(** [ops_le r r']: same table, same select flag, and every write flag set
    in [r] is set in [r']. *)
Definition ops_le (r r' : SequelizeParserModelOperations) : Prop :=
  table r = table r' /\ isSelect r = isSelect r' /\
  (isInsert r -> isInsert r') /\ (isUpdate r -> isUpdate r') /\
  (isDelete r -> isDelete r').

(** [grows s s']: every record of [s] is still in [s'] with at least its
    flags, and every record new in [s'] has its select flag set. *)
Record grows (s s' : SequelizeFoundModelsRecord) : Prop := mkGrows {
  grows_kept : forall k r, Dict.get k s = Some r ->
               exists r', Dict.get k s' = Some r' /\ ops_le r r';
  grows_new : forall k r', Dict.get k s = None -> Dict.get k s' = Some r' ->
              isSelect r' = true;
}.

(** Every record that exists has its select flag set. *)
Definition allSelect (s : SequelizeFoundModelsRecord) : Prop :=
  forall k r, Dict.get k s = Some r -> isSelect r = true.

(** [evolves st st']: the usage records of [st'] grow those of [st]. *)
Definition evolves (st st' : ParserState) : Prop :=
  grows (foundModels st) (foundModels st').

(** [sameRecords st st']: the usage records are untouched. *)
Definition sameRecords (st st' : ParserState) : Prop :=
  foundModels st' = foundModels st.

(** [neverThrows m]: [m] returns from every state. *)
Definition neverThrows {A} (m : M A) : Prop :=
  forall st, returns (m st) = true.

(** The store once a record for [model] is ensured
    ([getOrCreateModelOperations]). *)
Definition ensureRecord (model : ModelRef)
    (found : SequelizeFoundModelsRecord) : SequelizeFoundModelsRecord :=
  match Dict.get (name model) found with
  | Some _ => found
  | None => Dict.add (name model) (newModelOperations model) found
  end.

(** The name [getSequelizeModelNameFromThroughModel] returns. *)
Definition throughModelName (t : Through) : option string :=
  match t with
  | ThroughString s => Some s
  | ThroughModel m => Some (name m)
  | ThroughOptionsString s => if truthy s then Some s else None
  | ThroughOptionsModel m => Some (name m)
  | ThroughOptionsInvalid => None
  end.

(** The registered join model [getThroughModelOperations] resolves an
    association to, if any. *)
Definition resolveThrough (this : SequelizeParser)
    (association : Association) : option ModelStatic :=
  if negb (bool_decide (associationType association = BelongsToMany))
  then None
  else if throughIsFalsy (through association) then None
  else
    match through association with
    | None => None
    | Some t =>
        match throughModelName t with
        | None => None
        | Some n =>
            if truthy n then availableModels this !! n else None
        end
    end.

(** *** The direct write vocabulary, in the words of the specification *)

Definition classifier_spec (method : string)
  : option (list SequelizeWriteOperationType) :=
  if bool_decide (method ∈ ["create"; "bulkCreate"; "findOrCreate";
                            "findOrBuild"; "findCreateFind"; "build"])
  then Some [INSERT]
  else if bool_decide (method ∈ ["update"; "save"; "set"; "increment";
                                 "decrement"; "restore"; "bulkUpdate"])
  then Some [UPDATE]
  else if bool_decide (method = "destroy") then Some [DELETE]
  else if bool_decide (method = "upsert") then Some [INSERT; UPDATE]
  else None.

(** A record after the operations [ops] are flagged on it. *)
Definition applyOperations (ops : list SequelizeWriteOperationType)
    (r : SequelizeParserModelOperations) : SequelizeParserModelOperations :=
  mkOps (table r) (isSelect r)
    (isInsert r || bool_decide (INSERT ∈ ops))
    (isUpdate r || bool_decide (UPDATE ∈ ops))
    (isDelete r || bool_decide (DELETE ∈ ops)).

(** *** The effect table of the mixin handler, in the words of the
    specification *)

Record Delta := mkDelta {
  insertDelta : bool;
  updateDelta : bool;
  deleteDelta : bool;
}.

Definition noDelta : Delta := mkDelta false false false.

Definition joinDelta (d d' : Delta) : Delta :=
  mkDelta (insertDelta d || insertDelta d') (updateDelta d || updateDelta d')
    (deleteDelta d || deleteDelta d').

Definition applyDelta (d : Delta) (r : SequelizeParserModelOperations)
  : SequelizeParserModelOperations :=
  mkOps (table r) (isSelect r) (isInsert r || insertDelta d)
    (isUpdate r || updateDelta d) (isDelete r || deleteDelta d).

(** The deltas on the target's record and on the through entity's record. *)
Definition mixinEffectTable (verb : string) (throughPresent : bool)
  : Delta * Delta :=
  if decide (verb = "$add") then
    if throughPresent then (noDelta, mkDelta true false false)
    else (mkDelta false true false, noDelta)
  else if decide (verb = "$create") then
    if throughPresent then (mkDelta true false false, mkDelta true false false)
    else (mkDelta true false false, noDelta)
  else if decide (verb = "$set") then
    if throughPresent then (noDelta, mkDelta true true true)
    else (mkDelta false true false, noDelta)
  else if decide (verb = "$remove") then
    if throughPresent then (noDelta, mkDelta false false true)
    else (mkDelta false true false, noDelta)
  else (noDelta, noDelta).

(** The delta the table assigns to the record held under [k]. *)
Definition mixinDeltaAt (this : SequelizeParser) (verb : string)
    (association : Association) (k : string) : Delta :=
  let through := resolveThrough this association in
  let '(onTarget, onThrough) :=
    mixinEffectTable verb (bool_decide (is_Some through)) in
  joinDelta
    (if decide (k = name (target association)) then onTarget else noDelta)
    (match through with
     | Some J => if decide (k = name (self J)) then onThrough else noDelta
     | None => noDelta
     end).

(** The store on which the handler applies its deltas: the target's
    record and the resolved through entity's record are ensured. *)
Definition mixinBase (this : SequelizeParser) (association : Association)
    (found : SequelizeFoundModelsRecord) : SequelizeFoundModelsRecord :=
  match resolveThrough this association with
  | Some J => ensureRecord (self J) (ensureRecord (target association) found)
  | None => ensureRecord (target association) found
  end.

(** *** Callee shapes *)

(** The test [processCallExpression] makes on the callee before it
    resolves anything. *)
Definition passesShapeGate (expression : Node) : Prop :=
  3 <= getChildCount expression /\
  exists third, getChildAt expression 2 = Some third /\
    isIdentifier third = true /\
    isSequelizeModelWriteMethod (getText third) = true.

(** A three-part property access: receiver, dot, method identifier. *)
Definition isThreePartPropertyAccess (expression : Node) : Prop :=
  exists receiver method,
    getChildren expression =
    [receiver; Token DotToken "."; Token Identifier method].

(** *** Registries on which the completion pass reaches a fixed point *)

Definition registryKeyedByName (this : SequelizeParser) : Prop :=
  forall k m, availableModels this !! k = Some m -> name (self m) = k.

(** [J] is the join entity of a many-to-many association of the registry. *)
Definition isJoinEntity (this : SequelizeParser) (J : ModelStatic) : Prop :=
  exists k m a,
    availableModels this !! k = Some m /\
    a ∈ Dict.values (associations m) /\
    resolveThrough this a = Some J.

(** No join entity is the source or the target of a many-to-many
    association. *)
Definition joinsStandAlone (this : SequelizeParser) : Prop :=
  forall J, isJoinEntity this J ->
    (forall a, a ∈ Dict.values (associations J) ->
       associationType a <> BelongsToMany) /\
    (forall k m a,
       availableModels this !! k = Some m ->
       a ∈ Dict.values (associations m) ->
       associationType a = BelongsToMany ->
       name (target a) <> name (self J)).

(** *** The completion pass *)

(** The record [r] with the write flags of [t] or-ed in. *)
Definition mergeFlags (t r : SequelizeParserModelOperations)
  : SequelizeParserModelOperations :=
  mkOps (table r) (isSelect r) (isInsert r || isInsert t)
    (isUpdate r || isUpdate t) (isDelete r || isDelete t).

Definition hasWriteFlag (t : SequelizeParserModelOperations) : bool :=
  isInsert t || isUpdate t || isDelete t.

(** [changesOnlyJoins this st st']: the records that differ between [st]
    and [st'] are records of join entities of the registry. *)
Definition changesOnlyJoins (this : SequelizeParser)
    (st st' : ParserState) : Prop :=
  forall k,
    Dict.get k (foundModels st') <> Dict.get k (foundModels st) ->
    exists J, isJoinEntity this J /\ k = name (self J).

(** What one run of the completion pass guarantees of its steps. *)
Definition completes (this : SequelizeParser) (st st' : ParserState) : Prop :=
  evolves st st' /\ changesOnlyJoins this st st'.

(** [completed this found]: the completion pass has nothing left to do on
    [found]. *)
Definition completed (this : SequelizeParser)
    (found : SequelizeFoundModelsRecord) : Prop :=
  forall k, k ∈ Dict.keys found ->
    exists m, availableModels this !! k = Some m /\
      forall a t,
        a ∈ Dict.values (associations m) ->
        associationType a = BelongsToMany ->
        Dict.get (name (target a)) found = Some t ->
        match resolveThrough this a with
        | Some J =>
            exists j, Dict.get (name (self J)) found = Some j /\
                      mergeFlags t j = j
        | None => hasWriteFlag t = false
        end.

(** *** Imports *)

(** The registered models a named-import clause names, in order; the
    original name of [Original as Local] is the one looked up. *)
Definition importedModels (this : SequelizeParser) (bindings : NamedBindings)
  : list ModelStatic :=
  match bindings with
  | NamedImports elements =>
      omap (fun specifier =>
              availableModels this
                !! default (importName specifier) (propertyName specifier))
           elements
  | _ => []
  end.

(** The import comes from another module than the one the options
    restrict the analysis to. *)
Definition fromOtherModule (this : SequelizeParser) (moduleSpecifier : Node)
  : bool :=
  match onlyFromSpecificModuleImport (options this), moduleSpecifier with
  | Some only, Token StringLiteral raw => bool_decide (literalText raw <> only)
  | _, _ => false
  end.

Definition ensureRecords (models : list ModelStatic)
    (found : SequelizeFoundModelsRecord) : SequelizeFoundModelsRecord :=
  foldl (fun s m => ensureRecord (self m) s) found models.

(** *** Registries on which the completion pass never throws *)

(** Every many-to-many association of the registry resolves to a
    registered join model. *)
Definition throughsResolve (this : SequelizeParser) : Prop :=
  forall k m a,
    availableModels this !! k = Some m ->
    a ∈ Dict.values (associations m) ->
    associationType a = BelongsToMany ->
    is_Some (resolveThrough this a).

(** Every key of the store is a key of the registry. *)
Definition keysRegistered (this : SequelizeParser) (st : ParserState) : Prop :=
  forall k, k ∈ Dict.keys (foundModels st) ->
    is_Some (availableModels this !! k).

(** [throwsOnly P m]: every exception [m] throws satisfies [P]. *)
Definition throwsOnly (P : Exception -> Prop) {A} (m : M A) : Prop :=
  forall st e st', m st = Throw e st' -> P e.

Definition isTypeError (e : Exception) : Prop :=
  match e with TypeError _ => True | Error _ => False end.

(** *** SQL generation *)

Definition flagCount (r : SequelizeParserModelOperations) : nat :=
  (if isSelect r then 1 else 0) + (if isInsert r then 1 else 0)
  + (if isUpdate r then 1 else 0) + (if isDelete r then 1 else 0).

(** *** Naming the join model *)

(** [t] names the join model [n] in one of the four accepted ways. *)
Definition namesJoinModel (t : Through) (n : string) : Prop :=
  t = ThroughString n \/ (exists m, t = ThroughModel m /\ name m = n) \/
  t = ThroughOptionsString n \/
  (exists m, t = ThroughOptionsModel m /\ name m = n).

(** *** Programs *)

(** The parser [this] over another list of source files. *)
Definition withSourceFiles (this : SequelizeParser) (files : list SourceFile)
  : SequelizeParser :=
  mkParser (availableModels this) (options this) (getTypeAtLocation this)
    files.

(** The first of [models] named [k]. *)
Definition firstNamed (k : string) (models : list ModelStatic)
  : option ModelStatic :=
  head (List.filter (fun m => bool_decide (name (self m) = k)) models).

(** *** Computations that only report *)

(** [reportsOnly m]: [m] returns one result and appends one list of
    diagnostics, the same from every state, and touches no usage
    record. *)
Definition reportsOnly {A} (m : M A) : Prop :=
  exists result diagnostics,
    forall st,
      m st = Return result
               (mkState (foundModels st) (console st ++ diagnostics)).

(** *** Sample projects *)

(** Users and roles, many-to-many through [UserRole]. *)
Definition userRef : ModelRef := mkRef "User" (TableString "users").
Definition roleRef : ModelRef := mkRef "Role" (TableString "roles").
Definition userRoleRef : ModelRef :=
  mkRef "UserRole" (TableString "user_roles").

Definition rolesOfUser : Association :=
  mkAssociation BelongsToMany userRef roleRef (Some (ThroughModel userRoleRef)).
Definition usersOfRole : Association :=
  mkAssociation BelongsToMany roleRef userRef (Some (ThroughModel userRoleRef)).

Definition User : ModelStatic := mkModel userRef [("roles", rolesOfUser)].
Definition Role : ModelStatic := mkModel roleRef [("users", usersOfRole)].
Definition UserRole : ModelStatic := mkModel userRoleRef [].

Definition sampleModels : gmap string ModelStatic :=
  <["User" := User]> (<["Role" := Role]> (<["UserRole" := UserRole]> ∅)).

(** The same schema with the join model left out of the registry. *)
Definition modelsWithoutJoin : gmap string ModelStatic :=
  <["User" := User]> (<["Role" := Role]> ∅).

(** Only [User] is registered: the target of its association is not. *)
Definition modelsWithoutTarget : gmap string ModelStatic :=
  <["User" := User]> ∅.

Definition anyType : TsType := mkType None "any".
Definition userType : TsType := mkType (Some (mkSymbol "User" [])) "User".

(** [user] and [entity] are variables holding a [User]. *)
Definition sampleChecker (n : Node) : TsType :=
  if bool_decide (getText n ∈ ["user"; "entity"]) then userType else anyType.

Definition noOptions : SequelizeParserOptions := mkOptions None None.

Definition sampleParser (files : list SourceFile) : SequelizeParser :=
  mkParser sampleModels noOptions sampleChecker files.

Definition sampleHost (files : list SourceFile) : CompilerHost :=
  mkHost (fun basePath tsConfig => Some (basePath +:+ "/" +:+ tsConfig))
         (fun _ _ => (files, sampleChecker)).

Definition importOf (names : list string) : Node :=
  ImportDeclaration (Token StringLiteral "'./models'")
    (NamedImports (map (mkImportSpecifier None) names)).

Definition selectOnly (model : ModelRef)
  : string * SequelizeParserModelOperations :=
  (name model, newModelOperations model).

(** [import { User } from './models'; Role.create();] *)
Definition createRoleFile : SourceFile :=
  mkSourceFile false
    [ importOf ["User"];
      CallExpression (propertyAccess (Token Identifier "Role") "create") [] ].

(** Students and courses, many-to-many through [Enrollment]; enrollments
    and tags, many-to-many through [EnrollmentTag]. *)
Definition studentRef : ModelRef := mkRef "Student" (TableString "students").
Definition courseRef : ModelRef := mkRef "Course" (TableString "courses").
Definition enrollmentRef : ModelRef :=
  mkRef "Enrollment" (TableString "enrollments").
Definition tagRef : ModelRef := mkRef "Tag" (TableString "tags").
Definition enrollmentTagRef : ModelRef :=
  mkRef "EnrollmentTag" (TableString "enrollment_tags").

Definition Student : ModelStatic :=
  mkModel studentRef
    [("courses", mkAssociation BelongsToMany studentRef courseRef
                   (Some (ThroughModel enrollmentRef)))].
Definition Course : ModelStatic := mkModel courseRef [].
Definition Enrollment : ModelStatic :=
  mkModel enrollmentRef
    [("tags", mkAssociation BelongsToMany enrollmentRef tagRef
                (Some (ThroughModel enrollmentTagRef)))].
Definition Tag : ModelStatic := mkModel tagRef [].
Definition EnrollmentTag : ModelStatic := mkModel enrollmentTagRef [].

Definition schoolModels : gmap string ModelStatic :=
  <["Student" := Student]> (<["Course" := Course]>
  (<["Enrollment" := Enrollment]> (<["Tag" := Tag]>
  (<["EnrollmentTag" := EnrollmentTag]> ∅)))).

Definition schoolParser : SequelizeParser :=
  mkParser schoolModels noOptions (fun _ => anyType)
    [ mkSourceFile false [ importOf ["Student"; "Course"; "Tag"] ] ].

(** Users with tags and roles: [User] lists [tags], many-to-many to
    [Tag] through [UserTag], before [roles]; [UserRole] is registered,
    [UserTag] is not. *)
Definition userTagRef : ModelRef :=
  mkRef "UserTag" (TableString "user_tags").

Definition tagsOfUser : Association :=
  mkAssociation BelongsToMany userRef tagRef (Some (ThroughModel userTagRef)).

Definition TaggedUser : ModelStatic :=
  mkModel userRef [("tags", tagsOfUser); ("roles", rolesOfUser)].

Definition modelsWithoutTagJoin : gmap string ModelStatic :=
  <["User" := TaggedUser]> (<["Role" := Role]> (<["Tag" := Tag]>
  (<["UserRole" := UserRole]> ∅))).

(** [import { User } from './models'; Role.create(); Tag.create();] *)
Definition createRoleAndTagFile : SourceFile :=
  mkSourceFile false
    [ importOf ["User"];
      CallExpression (propertyAccess (Token Identifier "Role") "create") [];
      CallExpression (propertyAccess (Token Identifier "Tag") "create") [] ].

(** * Properties *)

(** ** Ordered dictionaries *)

Module DictFacts.
Section WithValue.
Context {V : Type}.
Implicit Types (o : list (string * V)) (k : string) (v : V).

Lemma get_app k o o' :
  Dict.get k (o ++ o') =
  match Dict.get k o with Some v => Some v | None => Dict.get k o' end.
Proof.
  induction o as [|[k' v'] o IH]; simpl; [done|].
  by case_decide.
Qed.

Lemma get_add k k' v o :
  Dict.get k (Dict.add k' v o) =
  match Dict.get k o with
  | Some w => Some w
  | None => if decide (k = k') then Some v else None
  end.
Proof. unfold Dict.add. rewrite get_app. done. Qed.

Lemma get_alter (f : V -> V) k k' o :
  Dict.get k (Dict.alter f k' o) =
  if decide (k = k') then f <$> Dict.get k o else Dict.get k o.
Proof.
  induction o as [|[k0 v0] o IH]; simpl.
  - by case_decide.
  - destruct (decide (k' = k0)) as [->|Hne]; simpl.
    + by destruct (decide (k = k0)) as [->|].
    + rewrite IH.
      destruct (decide (k = k0)) as [->|]; [|done].
      by rewrite decide_False.
Qed.

Lemma keys_alter (f : V -> V) k o :
  Dict.keys (Dict.alter f k o) = Dict.keys o.
Proof.
  induction o as [|[k0 v0] o IH]; simpl; [done|].
  case_decide; simpl; [done|]. f_equal. apply IH.
Qed.

Lemma keys_add k v o : Dict.keys (Dict.add k v o) = Dict.keys o ++ [k].
Proof. unfold Dict.add, Dict.keys. by rewrite map_app. Qed.

(** A write that does not change the value leaves the object as it is. *)
Lemma alter_fixed (f : V -> V) k o :
  (forall v, Dict.get k o = Some v -> f v = v) -> Dict.alter f k o = o.
Proof.
  induction o as [|[k0 v0] o IH]; simpl; [done|].
  intros Hf. destruct (decide (k = k0)) as [->|Hne].
  - rewrite Hf; [done|]. done.
  - f_equal. apply IH. done.
Qed.

Lemma get_Some_keys k v o : Dict.get k o = Some v -> k ∈ Dict.keys o.
Proof.
  induction o as [|[k0 v0] o IH]; simpl; [done|].
  case_decide; subst.
  - intros _. apply list_elem_of_here.
  - intros H'. apply list_elem_of_further. by apply IH.
Qed.

Lemma get_None_keys k o : k ∉ Dict.keys o -> Dict.get k o = None.
Proof.
  induction o as [|[k0 v0] o IH]; simpl; [done|].
  intros Hn. apply not_elem_of_cons in Hn as [Hne Hn].
  rewrite decide_False by done. by apply IH.
Qed.

Lemma keys_get k o : k ∈ Dict.keys o -> is_Some (Dict.get k o).
Proof.
  induction o as [|[k0 v0] o IH]; simpl.
  - intros H'. by apply elem_of_nil in H'.
  - intros H'. case_decide; [by eexists|].
    apply elem_of_cons in H' as [?|?]; [done|]. by apply IH.
Qed.

Lemma values_elem k v o : (k, v) ∈ o -> v ∈ Dict.values o.
Proof.
  intros H'. unfold Dict.values. apply list_elem_of_fmap.
  by exists (k, v).
Qed.

Lemma elem_values v o : v ∈ Dict.values o -> exists k, (k, v) ∈ o.
Proof.
  unfold Dict.values. intros H'. apply list_elem_of_fmap in H'.
  destruct H' as [[k w] [-> H']]. by exists k.
Qed.

Lemma get_elem k v o : Dict.get k o = Some v -> (k, v) ∈ o.
Proof.
  induction o as [|[k0 v0] o IH]; simpl; [done|].
  case_decide; subst.
  - intros [= ->]. apply list_elem_of_here.
  - intros H'. apply list_elem_of_further. by apply IH.
Qed.
Lemma alter_alter (f g : V -> V) k o :
  Dict.alter f k (Dict.alter g k o) = Dict.alter (fun v => f (g v)) k o.
Proof.
  induction o as [|[k0 v0] o IH]; simpl; [done|].
  destruct (decide (k = k0)) as [->|Hne]; simpl.
  - by rewrite decide_True.
  - rewrite decide_False by done. by rewrite IH.
Qed.

Lemma alter_ext (f g : V -> V) k o :
  (forall v, f v = g v) -> Dict.alter f k o = Dict.alter g k o.
Proof.
  intros Hfg. induction o as [|[k0 v0] o IH]; simpl; [done|].
  case_decide; [by rewrite Hfg|by rewrite IH].
Qed.

Lemma alter_add_absent (f : V -> V) k v o :
  Dict.get k o = None ->
  Dict.alter f k (Dict.add k v o) = Dict.add k (f v) o.
Proof.
  unfold Dict.add. induction o as [|[k0 v0] o IH]; simpl.
  - intros _. by rewrite decide_True.
  - case_decide; [done|]. intros Hk. by rewrite IH.
Qed.

End WithValue.
End DictFacts.

(** ** Reasoning about computations *)

Section Stable.
Context (R : relation ParserState) `{!PreOrder R}.

Lemma stable_ret {A} (a : A) : stable R (ret a).
Proof. intros st. simpl. reflexivity. Qed.

Lemma stable_throw {A} e : stable R (@throw A e).
Proof. intros st. simpl. reflexivity. Qed.

Lemma stable_bind {A B} (m : M A) (k : A -> M B) :
  stable R m -> (forall a, stable R (k a)) -> stable R (bind m k).
Proof.
  intros Hm Hk st. unfold bind. specialize (Hm st).
  destruct (m st) as [a st'|e st']; simpl in *; [|done].
  etrans; [exact Hm|]. apply Hk.
Qed.

Lemma stable_forEach {A} (f : A -> M unit) (l : list A) :
  Forall (fun x => stable R (f x)) l -> stable R (forEach f l).
Proof.
  induction 1 as [|x l Hx Hl IH]; simpl.
  - apply stable_ret.
  - apply stable_bind; [done|]. intros _. exact IH.
Qed.

Lemma stable_firstFound {A B} (f : A -> M (option B)) (l : list A) :
  Forall (fun x => stable R (f x)) l -> stable R (firstFound f l).
Proof.
  induction 1 as [|x l Hx Hl IH]; simpl.
  - apply stable_ret.
  - apply stable_bind; [done|]. intros [b|]; [apply stable_ret|exact IH].
Qed.

Lemma stable_getFoundModels : stable R getFoundModels.
Proof. intros st. simpl. reflexivity. Qed.

Lemma stable_readFlag flag ref : stable R (readFlag flag ref).
Proof. intros st. simpl. reflexivity. Qed.
End Stable.

(** How a returning [bind] and a returning loop decompose. *)
Lemma bind_Return {A B} (m : M A) (k : A -> M B) st b st2 :
  bind m k st = Return b st2 ->
  exists a st1, m st = Return a st1 /\ k a st1 = Return b st2.
Proof.
  unfold bind. destruct (m st) as [a st1|e st1]; [|done].
  intros Hk. by exists a, st1.
Qed.

Lemma forEach_Return_elem (R : relation ParserState) `{!PreOrder R}
    {A} (f : A -> M unit) (l : list A) x st st' :
  Forall (fun y => stable R (f y)) l ->
  x ∈ l ->
  forEach f l st = Return tt st' ->
  exists st1 st2, R st st1 /\ f x st1 = Return tt st2 /\ R st2 st'.
Proof.
  intros Hf Hx. revert st.
  induction Hf as [|y l Hy Hl IH]; intros st Hrun.
  - by apply elem_of_nil in Hx.
  - simpl in Hrun. apply bind_Return in Hrun as ([] & st1 & Hfy & Hrest).
    apply elem_of_cons in Hx as [->|Hx].
    + exists st, st1. split; [reflexivity|]. split; [done|].
      pose proof (stable_forEach R f l Hl st1) as Hloop.
      by rewrite Hrest in Hloop.
    + destruct (IH Hx st1 Hrest) as (s1 & s2 & H1 & H2 & H3).
      exists s1, s2. split; [|done].
      etrans; [|exact H1]. specialize (Hy st). by rewrite Hfy in Hy.
Qed.

(** A loop whose every step returns without touching the usage records
    returns without touching them. *)
Lemma forEach_unchanged {A} (f : A -> M unit) (l : list A) found :
  Forall (fun x => forall st, foundModels st = found ->
            exists st', f x st = Return tt st' /\ foundModels st' = found) l ->
  forall st, foundModels st = found ->
    exists st', forEach f l st = Return tt st' /\ foundModels st' = found.
Proof.
  induction 1 as [|x l Hx Hl IH]; intros st Hst; simpl.
  - by exists st.
  - unfold bind. destruct (Hx st Hst) as (st1 & -> & Hst1).
    by apply IH.
Qed.

(** ** The order on usage records and on stores *)

#[global] Instance ops_le_preorder : PreOrder ops_le.
Proof.
  split.
  - intros r. unfold ops_le. tauto.
  - intros r1 r2 r3 (?&?&?&?&?) (?&?&?&?&?). unfold ops_le.
    repeat split; try congruence; tauto.
Qed.

#[global] Instance grows_preorder : PreOrder grows.
Proof.
  split.
  - intros s. split.
    + intros k r Hk. by exists r.
    + intros k r' H1 H2. congruence.
  - intros s1 s2 s3 [K12 N12] [K23 N23]. split.
    + intros k r Hk. destruct (K12 k r Hk) as (r2 & H2 & L2).
      destruct (K23 k r2 H2) as (r3 & H3 & L3).
      exists r3. split; [done|]. by etrans.
    + intros k r3 H1 H3. destruct (Dict.get k s2) as [r2|] eqn:H2.
      * destruct (K23 k r2 H2) as (r3' & H3' & L3).
        assert (r3' = r3) as -> by congruence.
        destruct L3 as (_ & <- & _). by apply (N12 k).
      * by apply (N23 k).
Qed.

Lemma grows_allSelect s s' : grows s s' -> allSelect s -> allSelect s'.
Proof.
  intros [K N] Hs k r' Hk. destruct (Dict.get k s) as [r|] eqn:Hr.
  - destruct (K k r Hr) as (r2 & H2 & (_ & Hsel & _)).
    assert (r2 = r') as -> by congruence. rewrite <- Hsel. by apply (Hs k).
  - by apply (N k).
Qed.

Lemma grows_add k v s :
  Dict.get k s = None -> isSelect v = true -> grows s (Dict.add k v s).
Proof.
  intros Hk Hv. split.
  - intros k' r Hr. exists r. split; [|reflexivity].
    by rewrite DictFacts.get_add, Hr.
  - intros k' r' Hn. rewrite DictFacts.get_add, Hn.
    case_decide; [|done]. by intros [= <-].
Qed.

Lemma grows_alter f k s :
  (forall r, ops_le r (f r)) -> grows s (Dict.alter f k s).
Proof.
  intros Hf. split.
  - intros k' r Hr. rewrite DictFacts.get_alter, Hr.
    case_decide; simpl; eexists; (split; [done|]);
      first [apply Hf | reflexivity].
  - intros k' r'. rewrite DictFacts.get_alter. intros ->.
    by case_decide.
Qed.

Lemma ops_le_setInsert r : ops_le r (setInsert r).
Proof. unfold ops_le. simpl. tauto. Qed.
Lemma ops_le_setUpdate r : ops_le r (setUpdate r).
Proof. unfold ops_le. simpl. tauto. Qed.
Lemma ops_le_setDelete r : ops_le r (setDelete r).
Proof. unfold ops_le. simpl. tauto. Qed.

#[global] Instance evolves_preorder : PreOrder evolves.
Proof.
  split.
  - intros st. unfold evolves. reflexivity.
  - intros s1 s2 s3. unfold evolves. apply transitivity.
Qed.

#[global] Instance sameRecords_preorder : PreOrder sameRecords.
Proof.
  split.
  - by intros st.
  - intros s1 s2 s3. unfold sameRecords. congruence.
Qed.

(** A structural induction principle that reaches below the lists of
    children. *)
Lemma Node_nested_ind (P : Node -> Prop) :
  (forall kind text, P (Token kind text)) ->
  (forall e args, P e -> Forall P args -> P (CallExpression e args)) ->
  (forall spec bindings, P (ImportDeclaration spec bindings)) ->
  (forall kind children, Forall P children -> P (Syntax kind children)) ->
  forall n, P n.
Proof.
  intros HT HC HI HS.
  fix IH 1. intros [kind text|e args|spec bindings|kind children].
  - apply HT.
  - apply HC; [apply IH|].
    induction args as [|a args IHargs]; constructor; [apply IH|exact IHargs].
  - apply HI.
  - apply HS.
    induction children as [|c cs IHcs]; constructor; [apply IH|exact IHcs].
Qed.

(** ** Every operation only grows the store *)

Section Evolution.
Context (this : SequelizeParser).

Lemma evolves_log d : stable evolves (log d).
Proof. intros st. unfold evolves. simpl. reflexivity. Qed.

Lemma sameRecords_log d : stable sameRecords (log d).
Proof. by intros st. Qed.

Lemma evolves_writeField set ref :
  (forall r, ops_le r (set r)) -> stable evolves (writeField set ref).
Proof. intros Hset st. unfold evolves. simpl. by apply grows_alter. Qed.

Lemma evolves_writeFieldOrThrow set ref :
  (forall r, ops_le r (set r)) -> stable evolves (writeFieldOrThrow set ref).
Proof.
  intros Hset. destruct ref as [r|]; simpl.
  - by apply evolves_writeField.
  - apply stable_throw, _.
Qed.

Lemma evolves_create (model : ModelRef) st :
  Dict.get (name model) (foundModels st) = None ->
  evolves st
    (finalState
       (modifyFoundModels
          (Dict.add (name model) (newModelOperations model)) st)).
Proof. intros Hnone. unfold evolves. simpl. by apply grows_add. Qed.

Lemma evolves_getOrCreateModelOperations model :
  stable evolves (getOrCreateModelOperations model).
Proof.
  intros st. unfold getOrCreateModelOperations, bind, getFoundModels.
  destruct (Dict.get (name model) (foundModels st)) eqn:Hget; simpl.
  - reflexivity.
  - unfold evolves. simpl. by apply grows_add.
Qed.

Lemma evolves_getSequelizeModelNameFromThroughModel t :
  stable evolves (getSequelizeModelNameFromThroughModel t).
Proof.
  destruct t; simpl; try apply stable_ret, _.
  - case_match; [apply stable_ret, _|].
    apply stable_bind; [apply _|apply evolves_log|intros; apply stable_ret, _].
  - apply stable_bind; [apply _|apply evolves_log|intros; apply stable_ret, _].
Qed.

Lemma sameRecords_getSequelizeModelNameFromThroughModel t :
  stable sameRecords (getSequelizeModelNameFromThroughModel t).
Proof.
  destruct t; simpl; try apply stable_ret, _.
  - case_match; [apply stable_ret, _|].
    apply stable_bind;
      [apply _|apply sameRecords_log|intros; apply stable_ret, _].
  - apply stable_bind;
      [apply _|apply sameRecords_log|intros; apply stable_ret, _].
Qed.

Ltac evolve :=
  repeat first
    [ apply stable_ret; apply _
    | apply stable_throw; apply _
    | apply stable_getFoundModels; apply _
    | apply stable_readFlag; apply _
    | apply evolves_log
    | apply evolves_getOrCreateModelOperations
    | apply evolves_getSequelizeModelNameFromThroughModel
    | apply evolves_writeField; first
        [ apply ops_le_setInsert | apply ops_le_setUpdate
        | apply ops_le_setDelete ]
    | apply evolves_writeFieldOrThrow; first
        [ apply ops_le_setInsert | apply ops_le_setUpdate
        | apply ops_le_setDelete ]
    | apply stable_bind; [apply _| |intros ?]
    | apply stable_forEach; [apply _|apply Forall_forall; intros ? _]
    | apply stable_firstFound; [apply _|apply Forall_forall; intros ? _]
    | case_match ].

Lemma evolves_getThroughModelOperations association :
  stable evolves (getThroughModelOperations this association).
Proof. unfold getThroughModelOperations. evolve. Qed.

Lemma evolves_processImportDeclarationNode spec bindings :
  stable evolves (processImportDeclarationNode this spec bindings).
Proof.
  unfold processImportDeclarationNode.
  match goal with
  | |- stable _ (if ?b then _ else _) => destruct b
  end; [apply stable_ret, _|].
  apply stable_forEach; [apply _|]. apply Forall_forall. intros s _.
  destruct (availableModels this !! _) as [model|]; [|apply stable_ret, _].
  intros st. unfold bind, getFoundModels.
  destruct (Dict.get _ (foundModels st)) eqn:Hget; simpl.
  - reflexivity.
  - by apply evolves_create.
Qed.

Lemma evolves_processModelWriteMethod model method :
  stable evolves (processModelWriteMethod model method).
Proof. unfold processModelWriteMethod. evolve. Qed.

Lemma evolves_processModelTypescriptMixins model method args :
  stable evolves (processModelTypescriptMixins this model method args).
Proof.
  unfold processModelTypescriptMixins. evolve;
    apply evolves_getThroughModelOperations.
Qed.

Lemma evolves_addHiddenManyToManyModel association :
  stable evolves (addHiddenManyToManyModel this association).
Proof.
  unfold addHiddenManyToManyModel. evolve;
    apply evolves_getThroughModelOperations.
Qed.

Lemma evolves_addHiddenManyToManyModels :
  stable evolves (addHiddenManyToManyModels this).
Proof.
  unfold addHiddenManyToManyModels. evolve.
  apply evolves_addHiddenManyToManyModel.
Qed.

(** The resolver never touches the usage records. *)
Lemma sameRecords_findModelFromNode node :
  stable sameRecords (findModelFromNode this node).
Proof.
  unfold findModelFromNode, findModelInHeritageType.
  repeat first
    [ apply stable_ret; apply _
    | apply sameRecords_log
    | apply stable_bind; [apply _| |intros ?]
    | apply stable_firstFound; [apply _|apply Forall_forall; intros ? _]
    | case_match ].
Qed.

Lemma evolves_findModelFromNode node :
  stable evolves (findModelFromNode this node).
Proof.
  intros st. pose proof (sameRecords_findModelFromNode node st) as Hsame.
  unfold evolves, sameRecords in *. rewrite Hsame. reflexivity.
Qed.

Lemma evolves_processCallExpression expression args :
  stable evolves (processCallExpression this expression args).
Proof.
  unfold processCallExpression. evolve.
  - apply evolves_findModelFromNode.
  - apply evolves_processModelWriteMethod.
  - apply evolves_processModelTypescriptMixins.
Qed.

Lemma evolves_nodeVisitor node : stable evolves (nodeVisitor this node).
Proof.
  induction node as [kind text|e args IHe IHargs|spec bindings|kind cs IHcs]
    using Node_nested_ind; simpl.
  - apply stable_ret, _.
  - apply stable_bind; [apply _|apply evolves_processCallExpression|].
    intros _. apply stable_bind; [apply _|exact IHe|].
    intros _. by apply stable_forEach; [apply _|].
  - apply evolves_processImportDeclarationNode.
  - by apply stable_forEach; [apply _|].
Qed.

Lemma evolves_visitAllSourceFiles : stable evolves (visitAllSourceFiles this).
Proof.
  unfold visitAllSourceFiles.
  apply stable_bind;
    [apply _| |intros _; apply evolves_addHiddenManyToManyModels].
  apply stable_forEach; [apply _|]. apply Forall_forall. intros f _.
  case_match; [apply stable_ret, _|].
  apply stable_forEach; [apply _|]. apply Forall_forall. intros n _.
  apply evolves_nodeVisitor.
Qed.
End Evolution.

(** ** What never throws *)

Lemma neverThrows_Return {A} (m : M A) st :
  neverThrows m -> exists a st', m st = Return a st'.
Proof.
  intros Hm. specialize (Hm st). destruct (m st) as [a st'|]; [|done].
  by exists a, st'.
Qed.

Lemma neverThrows_ret {A} (a : A) : neverThrows (ret a).
Proof. by intros st. Qed.

Lemma neverThrows_bind {A B} (m : M A) (k : A -> M B) :
  neverThrows m -> (forall a, neverThrows (k a)) -> neverThrows (bind m k).
Proof.
  intros Hm Hk st. unfold bind. specialize (Hm st).
  destruct (m st) as [a st'|]; [|done]. apply Hk.
Qed.

Lemma neverThrows_forEach {A} (f : A -> M unit) (l : list A) :
  Forall (fun x => neverThrows (f x)) l -> neverThrows (forEach f l).
Proof.
  induction 1 as [|x l Hx Hl IH]; simpl.
  - apply neverThrows_ret.
  - apply neverThrows_bind; [done|]. intros _. exact IH.
Qed.

Lemma neverThrows_firstFound {A B} (f : A -> M (option B)) (l : list A) :
  Forall (fun x => neverThrows (f x)) l -> neverThrows (firstFound f l).
Proof.
  induction 1 as [|x l Hx Hl IH]; simpl.
  - apply neverThrows_ret.
  - apply neverThrows_bind; [done|].
    intros [b|]; [apply neverThrows_ret|exact IH].
Qed.

Lemma neverThrows_log d : neverThrows (log d).
Proof. by intros st. Qed.

Lemma neverThrows_getFoundModels : neverThrows getFoundModels.
Proof. by intros st. Qed.

Lemma neverThrows_modifyFoundModels f : neverThrows (modifyFoundModels f).
Proof. by intros st. Qed.

Lemma neverThrows_writeField set ref : neverThrows (writeField set ref).
Proof. by intros st. Qed.

Lemma neverThrows_readFlag flag ref : neverThrows (readFlag flag ref).
Proof. by intros st. Qed.

Ltac never_throws :=
  repeat first
    [ apply neverThrows_ret
    | apply neverThrows_log
    | apply neverThrows_getFoundModels
    | apply neverThrows_modifyFoundModels
    | apply neverThrows_writeField
    | apply neverThrows_readFlag
    | apply neverThrows_bind; [|intros ?]
    | apply neverThrows_forEach; apply Forall_forall; intros ? _
    | apply neverThrows_firstFound; apply Forall_forall; intros ? _
    | case_match ].

Section Totality.
Context (this : SequelizeParser).

Lemma neverThrows_getOrCreateModelOperations model :
  neverThrows (getOrCreateModelOperations model).
Proof. unfold getOrCreateModelOperations. never_throws. Qed.

Lemma neverThrows_getThroughModelOperations association :
  neverThrows (getThroughModelOperations this association).
Proof.
  unfold getThroughModelOperations, getSequelizeModelNameFromThroughModel.
  never_throws; apply neverThrows_getOrCreateModelOperations.
Qed.

Lemma neverThrows_processImportDeclarationNode spec bindings :
  neverThrows (processImportDeclarationNode this spec bindings).
Proof.
  unfold processImportDeclarationNode.
  match goal with
  | |- neverThrows (if ?b then _ else _) => destruct b
  end; never_throws.
Qed.

Lemma neverThrows_processModelWriteMethod model method :
  neverThrows (processModelWriteMethod model method).
Proof.
  unfold processModelWriteMethod.
  never_throws; apply neverThrows_getOrCreateModelOperations.
Qed.

Lemma neverThrows_processModelTypescriptMixins model method args :
  neverThrows (processModelTypescriptMixins this model method args).
Proof.
  unfold processModelTypescriptMixins.
  never_throws;
    first [ apply neverThrows_getOrCreateModelOperations
          | apply neverThrows_getThroughModelOperations ].
Qed.

Lemma neverThrows_findModelFromNode node :
  neverThrows (findModelFromNode this node).
Proof. unfold findModelFromNode, findModelInHeritageType. never_throws. Qed.

Lemma neverThrows_processCallExpression expression args :
  neverThrows (processCallExpression this expression args).
Proof.
  unfold processCallExpression. never_throws.
  - apply neverThrows_findModelFromNode.
  - apply neverThrows_processModelWriteMethod.
  - apply neverThrows_processModelTypescriptMixins.
Qed.

Lemma neverThrows_nodeVisitor node : neverThrows (nodeVisitor this node).
Proof.
  induction node as [kind text|e args IHe IHargs|spec bindings|kind cs IHcs]
    using Node_nested_ind; simpl.
  - apply neverThrows_ret.
  - apply neverThrows_bind; [apply neverThrows_processCallExpression|].
    intros _. apply neverThrows_bind; [exact IHe|].
    intros _. by apply neverThrows_forEach.
  - apply neverThrows_processImportDeclarationNode.
  - by apply neverThrows_forEach.
Qed.

(** The traversal itself, the completion pass left out, never throws
    (on own-key lookups, as everywhere in the embedding). *)
Lemma neverThrows_traversal :
  neverThrows
    (forEach
       (fun sourceFile =>
          if isDeclarationFile sourceFile then ret tt
          else forEach (nodeVisitor this) (statements sourceFile))
       (getSourceFiles this)).
Proof.
  apply neverThrows_forEach, Forall_forall. intros f _.
  case_match; [apply neverThrows_ret|].
  apply neverThrows_forEach, Forall_forall. intros n _.
  apply neverThrows_nodeVisitor.
Qed.
End Totality.

(** ** What the record helpers compute *)

Lemma get_ensureRecord model found k :
  Dict.get k (ensureRecord model found) =
  match Dict.get k found with
  | Some r => Some r
  | None =>
      if decide (k = name model) then Some (newModelOperations model)
      else None
  end.
Proof.
  unfold ensureRecord.
  destruct (Dict.get (name model) found) as [r0|] eqn:Hm.
  - destruct (Dict.get k found) eqn:Hk; [done|].
    case_decide; [|done]. congruence.
  - by rewrite DictFacts.get_add.
Qed.

Lemma get_ensureRecord_self model found :
  exists r, Dict.get (name model) (ensureRecord model found) = Some r /\
    r = default (newModelOperations model) (Dict.get (name model) found).
Proof.
  rewrite get_ensureRecord.
  destruct (Dict.get (name model) found) as [r|]; simpl.
  - by exists r.
  - rewrite decide_True by done. by eexists.
Qed.

Lemma ensureRecord_present model found r :
  Dict.get (name model) found = Some r -> ensureRecord model found = found.
Proof. unfold ensureRecord. by intros ->. Qed.

Lemma getOrCreateModelOperations_spec model st :
  getOrCreateModelOperations model st =
  Return (name model)
    (mkState (ensureRecord model (foundModels st)) (console st)).
Proof.
  unfold getOrCreateModelOperations, ensureRecord, bind, getFoundModels.
  destruct st as [found out]; simpl.
  by destruct (Dict.get (name model) found).
Qed.

Lemma getThroughModelOperations_spec this association st :
  exists st',
    getThroughModelOperations this association st =
      Return ((fun J => name (self J)) <$> resolveThrough this association) st'
    /\ foundModels st' =
       match resolveThrough this association with
       | Some J => ensureRecord (self J) (foundModels st)
       | None => foundModels st
       end.
Proof.
  unfold getThroughModelOperations, resolveThrough.
  destruct (negb _); [by exists st|].
  destruct (throughIsFalsy _); [by exists st|].
  destruct (through association) as [t|]; [|by exists st].
  unfold bind.
  assert (exists st1,
    getSequelizeModelNameFromThroughModel t st = Return (throughModelName t) st1
    /\ foundModels st1 = foundModels st) as (st1 & -> & Hst1).
  { destruct t; simpl; try by exists st.
    - destruct (truthy s); [by exists st|]. by eexists.
    - by eexists. }
  destruct (throughModelName t) as [n|]; [|by exists st1].
  destruct (truthy n); simpl; [|by exists st1].
  destruct (availableModels this !! n) as [J|]; simpl.
  - rewrite getOrCreateModelOperations_spec. eexists. split; [done|].
    simpl. by rewrite Hst1.
  - eexists. split; [done|]. done.
Qed.

(** ** The direct write vocabulary *)

Lemma record_matches_classifier method :
  Dict.get method SequelizeDefaultWriteMethodsRecord = classifier_spec method.
Proof.
  destruct (decide (method ∈ Dict.keys SequelizeDefaultWriteMethodsRecord))
    as [Hin|Hout].
  - simpl in Hin. set_unfold in Hin.
    repeat (destruct Hin as [->|Hin]; [reflexivity|]). done.
  - rewrite DictFacts.get_None_keys by done.
    simpl in Hout. set_unfold in Hout.
    unfold classifier_spec.
    repeat (rewrite bool_decide_eq_false_2;
            [|set_unfold; intros Hm; apply Hout; tauto]).
    done.
Qed.

Lemma classified_not_mixin method ops :
  classifier_spec method = Some ops ->
  isSequelizeTypescriptGeneratedWriteMethod method = false.
Proof.
  rewrite <- record_matches_classifier. intros Hget.
  apply DictFacts.get_Some_keys in Hget. simpl in Hget. set_unfold in Hget.
  repeat (destruct Hget as [->|Hget]; [reflexivity|]). done.
Qed.

Lemma classifier_spec_cases method ops :
  classifier_spec method = Some ops ->
  ops = [INSERT] \/ ops = [UPDATE] \/ ops = [DELETE] \/ ops = [INSERT; UPDATE].
Proof.
  unfold classifier_spec. repeat case_bool_decide; intros [= <-]; tauto.
Qed.

Lemma applyOperations_cases r :
  applyOperations [INSERT] r = setInsert r /\
  applyOperations [UPDATE] r = setUpdate r /\
  applyOperations [DELETE] r = setDelete r /\
  applyOperations [INSERT; UPDATE] r = setUpdate (setInsert r).
Proof. destruct r as [t s [] [] []]; repeat split; reflexivity. Qed.

Lemma processModelWriteMethod_effect model method ops st :
  classifier_spec method = Some ops ->
  exists st',
    processModelWriteMethod model method st = Return tt st' /\
    console st' = console st /\
    forall k,
      Dict.get k (foundModels st') =
      if decide (k = name (self model))
      then Some (applyOperations ops
                   (default (newModelOperations (self model))
                      (Dict.get k (foundModels st))))
      else Dict.get k (foundModels st).
Proof.
  intros Hspec.
  pose proof (classified_not_mixin _ _ Hspec) as Hmix.
  pose proof Hspec as Hget. rewrite <- record_matches_classifier in Hget.
  unfold processModelWriteMethod. rewrite Hmix, Hget.
  unfold bind. rewrite getOrCreateModelOperations_spec.
  destruct (applyOperations_cases
              (default (newModelOperations (self model))
                 (Dict.get (name (self model)) (foundModels st))))
    as (Hi & Hu & Hd & Hiu).
  destruct (classifier_spec_cases _ _ Hspec) as [-> | [-> | [-> | ->]]];
    simpl; unfold bind; simpl;
    (eexists; split; [reflexivity|]; split; [reflexivity|]);
    intros k; simpl; rewrite ?DictFacts.get_alter, get_ensureRecord;
    (destruct (decide (k = name (self model))) as [->|Hk];
     [|by destruct (Dict.get k (foundModels st))]);
    rewrite ?Hi, ?Hu, ?Hd, ?Hiu;
    by destruct (Dict.get (name (self model)) (foundModels st)).
Qed.

(** C3.  The record of default write methods is the classifier of the
    specification: create, bulkCreate, findOrCreate, findOrBuild,
    findCreateFind and build imply INSERT; update, save, set, increment,
    decrement, restore and bulkUpdate imply UPDATE; destroy implies DELETE;
    upsert implies INSERT and UPDATE; the record has these fifteen names
    and no other.  A classified call on a resolved entity flags exactly
    the implied operations on the entity's record (created if need be) and
    touches no other record; a call whose method name is in neither
    vocabulary leaves the state as it is. *)
Theorem C3_direct_write_classifier :
  (forall method,
     Dict.get method SequelizeDefaultWriteMethodsRecord
     = classifier_spec method) /\
  length (Dict.keys SequelizeDefaultWriteMethodsRecord) = 15 /\
  (forall model method ops st,
     classifier_spec method = Some ops ->
     exists st',
       processModelWriteMethod model method st = Return tt st' /\
       console st' = console st /\
       forall k,
         Dict.get k (foundModels st') =
         if decide (k = name (self model))
         then Some (applyOperations ops
                      (default (newModelOperations (self model))
                         (Dict.get k (foundModels st))))
         else Dict.get k (foundModels st)) /\
  (forall this expression args third st,
     getChildAt expression 2 = Some third ->
     classifier_spec (getText third) = None ->
     isSequelizeTypescriptGeneratedWriteMethod (getText third) = false ->
     processCallExpression this expression args st = Return tt st).
Proof.
  split; [exact record_matches_classifier|]. split; [reflexivity|]. split.
  - exact processModelWriteMethod_effect.
  - intros this expression args third st Hthird Hnone Hmix.
    unfold processCallExpression. rewrite Hthird.
    destruct (getFirstToken expression); [|done].
    case_bool_decide; [done|].
    unfold isSequelizeModelWriteMethod.
    rewrite Hmix, <- record_matches_classifier in *.
    rewrite bool_decide_eq_false_2.
    + simpl. by rewrite !orb_true_r.
    + intros Hin. apply DictFacts.keys_get in Hin as [? Hin]. congruence.
Qed.

(** C3 at [Role.upsert()] and at [Role.frobnicate()]. *)
Lemma C3_direct_write_classifier_witness :
  (exists st',
     processModelWriteMethod Role "upsert" initialState = Return tt st' /\
     Dict.get "Role" (foundModels st')
     = Some (mkOps "roles" true true true false)) /\
  processCallExpression (sampleParser [])
    (propertyAccess (Token Identifier "Role") "frobnicate") [] initialState
  = Return tt initialState.
Proof.
  destruct C3_direct_write_classifier as (_ & _ & Hwrite & Hother). split.
  - destruct (Hwrite Role "upsert" [INSERT; UPDATE] initialState eq_refl)
      as (st' & Hrun & _ & Hget).
    exists st'. split; [exact Hrun|]. rewrite (Hget "Role"). reflexivity.
  - apply (Hother (sampleParser []) _ [] (Token Identifier "frobnicate"));
      reflexivity.
Defined.

(** ** The store invariant *)

Lemma evolves_preserved {A} (m : M A) st :
  stable evolves m ->
  allSelect (foundModels st) ->
  allSelect (foundModels (finalState (m st))) /\
  forall k r, Dict.get k (foundModels st) = Some r ->
    exists r', Dict.get k (foundModels (finalState (m st))) = Some r' /\
               ops_le r r'.
Proof.
  intros Hm Hsel. specialize (Hm st). split.
  - by eapply grows_allSelect.
  - apply Hm.
Qed.

(** C4.  Every operation of the analysis (import processing, direct write
    classification, mixin handling, the completion pass, and the whole
    run), whether it returns or throws, keeps the select flag of every
    record set, keeps every record, and leaves every record with its
    table, its select flag and at least the write flags it had: no flag
    goes from true back to false. *)
Theorem C4_flags_only_grow (this : SequelizeParser) :
  let preserved (m : M unit) :=
    forall st,
      allSelect (foundModels st) ->
      allSelect (foundModels (finalState (m st))) /\
      forall k r, Dict.get k (foundModels st) = Some r ->
        exists r', Dict.get k (foundModels (finalState (m st))) = Some r' /\
                   ops_le r r' in
  (forall spec bindings,
     preserved (processImportDeclarationNode this spec bindings)) /\
  (forall model method, preserved (processModelWriteMethod model method)) /\
  (forall model method args,
     preserved (processModelTypescriptMixins this model method args)) /\
  preserved (addHiddenManyToManyModels this) /\
  preserved (visitAllSourceFiles this).
Proof.
  simpl. repeat split; intros; eapply evolves_preserved; eauto.
  - apply evolves_processImportDeclarationNode.
  - apply evolves_processImportDeclarationNode.
  - apply evolves_processModelWriteMethod.
  - apply evolves_processModelWriteMethod.
  - apply evolves_processModelTypescriptMixins.
  - apply evolves_processModelTypescriptMixins.
  - apply evolves_addHiddenManyToManyModels.
  - apply evolves_addHiddenManyToManyModels.
  - apply evolves_visitAllSourceFiles.
  - apply evolves_visitAllSourceFiles.
Qed.

Lemma allSelect_nil : allSelect [].
Proof. intros k r. simpl. done. Qed.

Lemma allSelect_cons k r s :
  isSelect r = true -> allSelect s -> allSelect ((k, r) :: s).
Proof.
  intros Hr Hs k' r'. simpl. case_decide.
  - by intros [= <-].
  - apply Hs.
Qed.

(** C4 at a run over [createRoleFile] that starts with a record for
    [Role] whose delete flag is set. *)
Lemma C4_flags_only_grow_witness :
  let st := mkState [("Role", mkOps "roles" true false false true)] [] in
  let st' :=
    finalState (visitAllSourceFiles (sampleParser [createRoleFile]) st) in
  allSelect (foundModels st) /\
  allSelect (foundModels st') /\
  exists r', Dict.get "Role" (foundModels st') = Some r' /\
             ops_le (mkOps "roles" true false false true) r'.
Proof.
  simpl.
  pose proof (C4_flags_only_grow (sampleParser [createRoleFile])) as H.
  simpl in H. destruct H as (_ & _ & _ & _ & Hrun).
  assert (allSelect [("Role", mkOps "roles" true false false true)]) as Hsel
    by (apply allSelect_cons; [reflexivity|apply allSelect_nil]).
  split; [exact Hsel|].
  destruct (Hrun (mkState [("Role", mkOps "roles" true false false true)] [])
              Hsel) as [Hall Hkept].
  split; [exact Hall|]. apply Hkept. reflexivity.
Defined.

(** ** The association-mixin handler *)

Lemma mixin_verbs method :
  isSequelizeTypescriptGeneratedWriteMethod method = true ->
  method = "$add" \/ method = "$create" \/ method = "$set" \/
  method = "$remove".
Proof.
  unfold isSequelizeTypescriptGeneratedWriteMethod.
  intros H. apply bool_decide_eq_true in H. set_unfold in H. tauto.
Qed.

Lemma applyDelta_noDelta r : applyDelta noDelta r = r.
Proof. by destruct r as [t s [] [] []]. Qed.

Lemma mixins_effect this sourceModel method raw second rest association st :
  isSequelizeTypescriptGeneratedWriteMethod method = true ->
  Dict.get (literalText raw) (associations sourceModel) = Some association ->
  is_Some (availableModels this !! name (target association)) ->
  exists st',
    processModelTypescriptMixins this sourceModel method
      (Token StringLiteral raw :: second :: rest) st = Return tt st' /\
    forall k,
      Dict.get k (foundModels st') =
      applyDelta (mixinDeltaAt this method association k)
        <$> Dict.get k (mixinBase this association (foundModels st)).
Proof.
  intros Hverb Hassoc [targetModel Htarget].
  unfold processModelTypescriptMixins.
  rewrite Hverb, Hassoc, Htarget. simpl.
  unfold bind at 1. rewrite getOrCreateModelOperations_spec.
  unfold bind at 1.
  destruct (getThroughModelOperations_spec this association
              (mkState (ensureRecord (target association) (foundModels st))
                 (console st))) as (st2 & -> & Hst2).
  simpl in Hst2. unfold mixinBase, mixinDeltaAt.
  destruct (resolveThrough this association) as [J|]; simpl.
  - apply mixin_verbs in Hverb as [-> | [-> | [-> | ->]]]; simpl;
      unfold bind; simpl;
      (eexists; split; [reflexivity|]); intros k; simpl;
      rewrite ?DictFacts.get_alter, Hst2;
      destruct (decide (k = name (target association)));
      destruct (decide (k = name (self J)));
      destruct (Dict.get k _) as [[t s [] [] []]|]; reflexivity.
  - apply mixin_verbs in Hverb as [-> | [-> | [-> | ->]]]; simpl;
      unfold bind; simpl;
      (eexists; split; [reflexivity|]); intros k; simpl;
      rewrite ?DictFacts.get_alter, Hst2;
      destruct (decide (k = name (target association)));
      destruct (Dict.get k _) as [[t s [] [] []]|]; reflexivity.
Qed.

Lemma get_mixinBase_other this association found k :
  k <> name (target association) ->
  (forall J, resolveThrough this association = Some J -> k <> name (self J)) ->
  Dict.get k (mixinBase this association found) = Dict.get k found.
Proof.
  intros Htarget Hthrough. unfold mixinBase.
  destruct (resolveThrough this association) as [J|].
  - rewrite !get_ensureRecord.
    destruct (Dict.get k found); [done|].
    rewrite decide_False by done. by rewrite decide_False by by apply Hthrough.
  - rewrite get_ensureRecord.
    destruct (Dict.get k found); [done|]. by rewrite decide_False.
Qed.

Lemma mixinDeltaAt_other this verb association k :
  k <> name (target association) ->
  (forall J, resolveThrough this association = Some J -> k <> name (self J)) ->
  mixinDeltaAt this verb association k = noDelta.
Proof.
  intros Htarget Hthrough. unfold mixinDeltaAt.
  destruct (mixinEffectTable _ _) as [onTarget onThrough].
  rewrite decide_False by done.
  destruct (resolveThrough this association) as [J|]; [|done].
  by rewrite decide_False by by apply Hthrough.
Qed.

(** C1, amended.  For a mixin call with a verb of the mixin vocabulary, at
    least two arguments, a string-literal association name found on the
    source entity and a registered target, the handler returns and the
    write flags it sets are exactly those of the effect table: on the
    records of the target and of the resolved through entity (both
    ensured to exist), the deltas of [mixinEffectTable]; every other
    record is as it was. *)
Theorem C1_mixin_effect_table
    this sourceModel method raw second rest association st :
  isSequelizeTypescriptGeneratedWriteMethod method = true ->
  Dict.get (literalText raw) (associations sourceModel) = Some association ->
  is_Some (availableModels this !! name (target association)) ->
  exists st',
    processModelTypescriptMixins this sourceModel method
      (Token StringLiteral raw :: second :: rest) st = Return tt st' /\
    (forall k,
       Dict.get k (foundModels st') =
       applyDelta (mixinDeltaAt this method association k)
         <$> Dict.get k (mixinBase this association (foundModels st))) /\
    (forall k,
       k <> name (target association) ->
       (forall J, resolveThrough this association = Some J ->
                  k <> name (self J)) ->
       Dict.get k (foundModels st') = Dict.get k (foundModels st)).
Proof.
  intros Hverb Hassoc Htarget.
  destruct (mixins_effect this sourceModel method raw second rest association
              st Hverb Hassoc Htarget) as (st' & Hrun & Heffect).
  exists st'. split; [exact Hrun|]. split; [exact Heffect|].
  intros k Hk HJ. rewrite Heffect, mixinDeltaAt_other by done.
  rewrite get_mixinBase_other by done.
  destruct (Dict.get k (foundModels st)) as [r|]; [|done].
  simpl. by rewrite applyDelta_noDelta.
Qed.

(** C1 at [user.$set('roles', roles)] on the sample registry: all three
    write flags of [UserRole] are set, [Role] is select-only. *)
Lemma C1_mixin_effect_table_witness :
  exists st',
    processModelTypescriptMixins (sampleParser []) User "$set"
      [Token StringLiteral "'roles'"; Token Identifier "roles"] initialState
    = Return tt st' /\
    Dict.get "UserRole" (foundModels st')
    = Some (mkOps "user_roles" true true true true) /\
    Dict.get "Role" (foundModels st')
    = Some (mkOps "roles" true false false false) /\
    Dict.get "User" (foundModels st') = None.
Proof.
  destruct (C1_mixin_effect_table (sampleParser []) User "$set" "'roles'"
              (Token Identifier "roles") [] rolesOfUser initialState)
    as (st' & Hrun & Heffect & Hframe).
  - reflexivity.
  - reflexivity.
  - by eexists.
  - exists st'. split; [exact Hrun|].
    rewrite (Heffect "UserRole"), (Heffect "Role").
    split; [reflexivity|]. split; [reflexivity|].
    rewrite (Hframe "User"); [reflexivity|done|].
    intros J. vm_compute. by intros [= <-].
Defined.

(** C1 as stated fails: the verb is [$create], the receiver is the
    registered [User], the literal association name [roles] is found on it,
    and yet nothing is flagged, because the target [Role] is not
    registered. *)
Lemma C1_counterexample :
  let this := mkParser modelsWithoutTarget noOptions sampleChecker [] in
  let st' :=
    finalState
      (processModelTypescriptMixins this User "$create"
         [Token StringLiteral "'roles'"; Token Identifier "role"]
         initialState) in
  isSequelizeTypescriptGeneratedWriteMethod "$create" = true /\
  availableModels this !! "User" = Some User /\
  Dict.get (literalText "'roles'") (associations User) = Some rolesOfUser /\
  Dict.get (name (target rolesOfUser)) (foundModels st') = None /\
  foundModels st' = [].
Proof. vm_compute. repeat split; reflexivity. Qed.

(** C10.  A mixin call that reaches the effect stage (verb of the mixin
    vocabulary, at least two arguments, literal association name found on
    the source entity, target registered) returns, and afterwards the
    target entity has a usage record whose select flag is set, whatever
    the verb and whether or not a through entity is resolved. *)
Theorem C10_mixin_ensures_target_record
    this sourceModel method raw second rest association st :
  isSequelizeTypescriptGeneratedWriteMethod method = true ->
  Dict.get (literalText raw) (associations sourceModel) = Some association ->
  is_Some (availableModels this !! name (target association)) ->
  allSelect (foundModels st) ->
  exists st' r,
    processModelTypescriptMixins this sourceModel method
      (Token StringLiteral raw :: second :: rest) st = Return tt st' /\
    Dict.get (name (target association)) (foundModels st') = Some r /\
    isSelect r = true.
Proof.
  intros Hverb Hassoc Htarget Hsel.
  destruct (mixins_effect this sourceModel method raw second rest association
              st Hverb Hassoc Htarget) as (st' & Hrun & Heffect).
  assert (exists r0,
    Dict.get (name (target association))
      (mixinBase this association (foundModels st)) = Some r0 /\
    isSelect r0 = true) as (r0 & Hr0 & Hsel0).
  { unfold mixinBase.
    destruct (get_ensureRecord_self (target association) (foundModels st))
      as (r0 & Hr0 & Hdef).
    exists r0. split.
    - destruct (resolveThrough this association) as [J|]; [|done].
      by rewrite get_ensureRecord, Hr0.
    - destruct (Dict.get (name (target association)) (foundModels st))
        as [r|] eqn:Hr; simpl in Hdef; subst r0; [|done].
      by apply (Hsel _ _ Hr). }
  exists st', (applyDelta
                 (mixinDeltaAt this method association
                    (name (target association))) r0).
  split; [exact Hrun|]. split; [|exact Hsel0].
  by rewrite Heffect, Hr0.
Qed.

(** C10 at [user.$remove('roles', role)]: the delta goes to [UserRole]
    only, and [Role] gets a select-only record all the same. *)
Lemma C10_mixin_ensures_target_record_witness :
  allSelect (foundModels initialState) /\
  exists st' r,
    processModelTypescriptMixins (sampleParser []) User "$remove"
      [Token StringLiteral "'roles'"; Token Identifier "role"] initialState
    = Return tt st' /\
    Dict.get "Role" (foundModels st') = Some r /\ isSelect r = true.
Proof.
  split; [apply allSelect_nil|].
  apply (C10_mixin_ensures_target_record (sampleParser []) User "$remove"
           "'roles'" (Token Identifier "role") [] rolesOfUser initialState).
  - reflexivity.
  - reflexivity.
  - by eexists.
  - apply allSelect_nil.
Defined.

(** ** Call expressions *)

Lemma empty_not_write_method : isSequelizeModelWriteMethod EmptyString = false.
Proof. reflexivity. Qed.

(** Past the shape gate, the call is resolved and handed to the two
    handlers. *)
Lemma processCallExpression_classified
    this expression args firstNode third st :
  getFirstToken expression = Some firstNode ->
  3 <= getChildCount expression ->
  getChildAt expression 2 = Some third ->
  isIdentifier third = true ->
  isSequelizeModelWriteMethod (getText third) = true ->
  processCallExpression this expression args st =
  (let* model := findModelFromNode this firstNode in
   match model with
   | None => ret tt
   | Some model =>
       let* _ := processModelWriteMethod model (getText third) in
       processModelTypescriptMixins this model (getText third) args
   end) st.
Proof.
  intros Hfirst Hcount Hthird Hid Hwrite.
  unfold processCallExpression. rewrite Hfirst, Hthird, Hid, Hwrite.
  rewrite bool_decide_eq_false_2 by lia.
  assert (truthy (getText third) = true) as ->; [|done].
  unfold truthy. apply bool_decide_eq_true. intros Hempty.
  rewrite Hempty, empty_not_write_method in Hwrite. done.
Qed.

Lemma findModelFromNode_sameRecords this node st model st1 :
  findModelFromNode this node st = Return model st1 ->
  foundModels st1 = foundModels st.
Proof.
  intros Hrun. pose proof (sameRecords_findModelFromNode this node st) as H.
  by rewrite Hrun in H.
Qed.

(** C9.  For the call [user.$add('roles', role)], where the receiver
    resolves to the source entity ([User]), the literal names one of its
    associations, the target ([Role]) is registered and the association
    resolves to a registered join entity ([UserRole]), both of them other
    entities than the source: the call returns, the join entity's record
    has its insert flag set, and the source entity's own record, if any,
    is exactly as it was. *)
Theorem C9_mixin_leaves_source_record
    this receiver raw second rest user association J st st1 :
  findModelFromNode this (Token Identifier receiver) st
    = Return (Some user) st1 ->
  Dict.get (literalText raw) (associations user) = Some association ->
  is_Some (availableModels this !! name (target association)) ->
  resolveThrough this association = Some J ->
  name (self user) <> name (target association) ->
  name (self user) <> name (self J) ->
  exists st',
    processCallExpression this
      (propertyAccess (Token Identifier receiver) "$add")
      (Token StringLiteral raw :: second :: rest) st = Return tt st' /\
    (exists r, Dict.get (name (self J)) (foundModels st') = Some r /\
               isInsert r = true) /\
    Dict.get (name (self user)) (foundModels st')
    = Dict.get (name (self user)) (foundModels st).
Proof.
  intros Hresolve Hassoc Htarget Hthrough Hne_target Hne_through.
  rewrite (processCallExpression_classified this _ _
             (Token Identifier receiver) (Token Identifier "$add"));
    [|reflexivity|unfold getChildCount; simpl; lia
     |reflexivity|reflexivity|reflexivity].
  unfold bind at 1. rewrite Hresolve. simpl.
  unfold bind at 1. simpl.
  destruct (mixins_effect this user "$add" raw second rest association st1
              eq_refl Hassoc Htarget) as (st' & Hrun & Heffect).
  pose proof (findModelFromNode_sameRecords _ _ _ _ _ Hresolve) as Hsame.
  exists st'. split; [exact Hrun|]. split.
  - rewrite Heffect. unfold mixinBase, mixinDeltaAt. rewrite Hthrough.
    destruct (get_ensureRecord_self (self J)
                (ensureRecord (target association) (foundModels st1)))
      as (r0 & -> & _).
    simpl. eexists. split; [done|]. simpl.
    destruct (decide (name (self J) = name (self J))); [|done].
    simpl. by rewrite !orb_true_r.
  - rewrite Heffect, mixinDeltaAt_other, get_mixinBase_other, Hsame;
      try done; try (intros J' HJ'; congruence).
    destruct (Dict.get _ (foundModels st)); [|done].
    simpl. by rewrite applyDelta_noDelta.
Qed.

(** C9 on the sample project: [user] holds a [User], which already has a
    record with its update flag set. *)
Lemma C9_mixin_leaves_source_record_witness :
  let st := mkState [("User", mkOps "users" true false true false)] [] in
  exists st',
    processCallExpression (sampleParser [])
      (propertyAccess (Token Identifier "user") "$add")
      [Token StringLiteral "'roles'"; Token Identifier "role"] st
    = Return tt st' /\
    (exists r, Dict.get "UserRole" (foundModels st') = Some r /\
               isInsert r = true) /\
    Dict.get "User" (foundModels st')
    = Some (mkOps "users" true false true false).
Proof.
  simpl.
  apply (C9_mixin_leaves_source_record (sampleParser []) "user" "'roles'"
           (Token Identifier "role") [] User rolesOfUser UserRole
           (mkState [("User", mkOps "users" true false true false)] [])
           (mkState [("User", mkOps "users" true false true false)] [])).
  - reflexivity.
  - reflexivity.
  - by eexists.
  - reflexivity.
  - done.
  - done.
Defined.

Lemma mixins_ignore_direct_method this model method args st :
  isSequelizeTypescriptGeneratedWriteMethod method = false ->
  processModelTypescriptMixins this model method args st = Return tt st.
Proof. intros H. unfold processModelTypescriptMixins. by rewrite H. Qed.

(** C8.  For a call [entity.destroy()] whose receiver identifier names no
    registered entity while the symbol of its static type names the
    registered entity [model], the call returns and the record of [model]
    has its delete flag set. *)
Theorem C8_type_based_resolution this receiver args sym model st :
  availableModels this !! receiver = None ->
  getSymbol (getTypeAtLocation this (Token Identifier receiver)) = Some sym ->
  availableModels this !! getName sym = Some model ->
  exists st' r,
    processCallExpression this
      (propertyAccess (Token Identifier receiver) "destroy") args st
    = Return tt st' /\
    Dict.get (name (self model)) (foundModels st') = Some r /\
    isDelete r = true.
Proof.
  intros Htext Hsym Hmodel.
  rewrite (processCallExpression_classified this _ _
             (Token Identifier receiver) (Token Identifier "destroy"));
    [|reflexivity|unfold getChildCount; simpl; lia
     |reflexivity|reflexivity|reflexivity].
  unfold bind at 1, findModelFromNode. simpl.
  rewrite Htext, Hsym. simpl. rewrite Hmodel. simpl.
  destruct (processModelWriteMethod_effect model "destroy" [DELETE] st eq_refl)
    as (st' & Hrun & _ & Hget).
  unfold bind. rewrite Hrun.
  rewrite mixins_ignore_direct_method by reflexivity.
  exists st'. eexists. split; [reflexivity|].
  rewrite Hget, decide_True by done. split; [reflexivity|].
  simpl. apply orb_true_r.
Qed.

(** C8 on the sample project: [entity] is no registered name, its type is
    [User]. *)
Lemma C8_type_based_resolution_witness :
  exists st' r,
    processCallExpression (sampleParser [])
      (propertyAccess (Token Identifier "entity") "destroy") [] initialState
    = Return tt st' /\
    Dict.get "User" (foundModels st') = Some r /\ isDelete r = true.
Proof.
  apply (C8_type_based_resolution (sampleParser []) "entity" []
           (mkSymbol "User" []) User initialState); reflexivity.
Defined.

(** ** The shape gate *)

Lemma shape_gate_rejects this expression args st :
  ~ passesShapeGate expression ->
  processCallExpression this expression args st = Return tt st.
Proof.
  intros Hgate. unfold processCallExpression.
  destruct (getFirstToken expression) as [firstNode|]; [|done].
  case_bool_decide as Hcount; [done|].
  destruct (getChildAt expression 2) as [third|] eqn:Hthird; [|done].
  destruct (truthy (getText third)); [|done].
  destruct (isIdentifier third) eqn:Hid; [|done].
  destruct (isSequelizeModelWriteMethod (getText third)) eqn:Hwrite; [|done].
  exfalso. apply Hgate. split; [lia|]. by exists third.
Qed.

(** C6, amended.  A call expression is classified only when its callee
    has at least three children and the third child is an identifier
    whose text is a write-method name; every other callee is rejected
    with the state untouched, whatever the type checker would answer.  A
    plain function call (the callee is a token) and a computed access
    whose key is not an identifier are rejected.  The dotted access
    [receiver.method] passes the gate, and so do the optional chain
    [receiver?.method] and the computed access [receiver[method]] by an
    identifier named like a write method. *)
Theorem C6_call_shape_gate :
  (forall this expression args st,
     ~ passesShapeGate expression ->
     processCallExpression this expression args st = Return tt st) /\
  (forall kind text, ~ passesShapeGate (Token kind text)) /\
  (forall receiver key,
     isIdentifier key = false ->
     ~ passesShapeGate (elementAccess receiver key)) /\
  (forall receiver method,
     isSequelizeModelWriteMethod method = true ->
     passesShapeGate (propertyAccess receiver method) /\
     passesShapeGate (propertyAccessChain receiver method) /\
     passesShapeGate (elementAccess receiver (Token Identifier method))).
Proof.
  split; [exact shape_gate_rejects|]. split; [|split].
  - intros kind text [Hcount _]. unfold getChildCount in Hcount.
    simpl in Hcount. lia.
  - intros receiver key Hkey (_ & third & Hthird & Hid & _).
    unfold getChildAt in Hthird. simpl in Hthird.
    injection Hthird as <-. congruence.
  - intros receiver method Hwrite.
    repeat split; try (unfold getChildCount; simpl; lia);
      by exists (Token Identifier method).
Qed.

(** C6 at the plain function call [create()]. *)
Lemma C6_call_shape_gate_witness :
  ~ passesShapeGate (Token Identifier "create") /\
  processCallExpression (sampleParser []) (Token Identifier "create") []
    initialState = Return tt initialState.
Proof.
  destruct C6_call_shape_gate as (Hreject & Htoken & _).
  split; [apply Htoken|]. apply Hreject, Htoken.
Defined.

(** C6 as stated fails: the callee of [entity?.destroy()] is not a
    three-part property access with a dot, and the call is classified all
    the same: it flags DELETE on [User]. *)
Lemma C6_counterexample :
  let expression := propertyAccessChain (Token Identifier "entity") "destroy" in
  ~ isThreePartPropertyAccess expression /\
  processCallExpression (sampleParser []) expression [] initialState
  = Return tt (mkState [("User", mkOps "users" true false false true)] []).
Proof.
  split.
  - intros (receiver & method & Hchildren). simpl in Hchildren.
    discriminate Hchildren.
  - reflexivity.
Qed.

(** ** One step of the completion pass *)

Section CompletionStep.
Context (this : SequelizeParser).

Lemma step_skips association st :
  associationType association <> BelongsToMany \/
  Dict.get (name (target association)) (foundModels st) = None ->
  addHiddenManyToManyModel this association st = Return tt st.
Proof.
  intros Hskip. unfold addHiddenManyToManyModel.
  case_bool_decide as Hkind; simpl; [|done].
  destruct Hskip as [Hne|Hnone]; [done|].
  unfold bind, getFoundModels. by rewrite Hnone.
Qed.

Lemma step_resolved association t J st :
  Dict.get (name (target association)) (foundModels st) = Some t ->
  resolveThrough this association = Some J ->
  exists st',
    addHiddenManyToManyModel this association st = Return tt st' /\
    foundModels st' =
    Dict.alter (mergeFlags t) (name (self J))
      (ensureRecord (self J) (foundModels st)).
Proof.
  intros Htarget Hthrough.
  assert (associationType association = BelongsToMany) as Hkind.
  { unfold resolveThrough in Hthrough.
    case_bool_decide; [done|]. by simpl in Hthrough. }
  unfold addHiddenManyToManyModel.
  rewrite bool_decide_eq_true_2 by done. simpl.
  unfold bind at 1, getFoundModels. rewrite Htarget.
  unfold bind at 1.
  destruct (getThroughModelOperations_spec this association st)
    as (st2 & -> & Hst2).
  rewrite Hthrough in *. simpl.
  destruct st2 as [found2 out2]. simpl in Hst2. subst found2.
  set (base := ensureRecord (self J) (foundModels st)).
  assert (Dict.get (name (target association)) base = Some t) as Hbase.
  { unfold base. by rewrite get_ensureRecord, Htarget. }
  unfold bind, readFlag, writeFieldOrThrow, writeField, modifyFoundModels.
  simpl. rewrite Hbase. simpl.
  destruct t as [tbl sel ins upd del].
  destruct ins, upd, del; simpl;
    repeat (rewrite ?DictFacts.get_alter, ?Hbase; simpl;
            try case_decide; simpl);
    (eexists; split; [reflexivity|]); simpl;
    rewrite ?DictFacts.alter_alter;
    first [ apply DictFacts.alter_ext; by intros [? ? [] [] []]
          | symmetry; apply DictFacts.alter_fixed; by intros [? ? [] [] []] ].
Qed.

Lemma step_unresolved association t st :
  associationType association = BelongsToMany ->
  Dict.get (name (target association)) (foundModels st) = Some t ->
  resolveThrough this association = None ->
  foundModels (finalState (addHiddenManyToManyModel this association st))
  = foundModels st /\
  returns (addHiddenManyToManyModel this association st)
  = negb (hasWriteFlag t).
Proof.
  intros Hkind Htarget Hthrough.
  assert (exists st2,
    addHiddenManyToManyModel this association st =
    (let* ins := readFlag isInsert (name (target association)) in
     let* _ := if ins then writeFieldOrThrow setInsert None else ret tt in
     let* upd := readFlag isUpdate (name (target association)) in
     let* _ := if upd then writeFieldOrThrow setUpdate None else ret tt in
     let* del := readFlag isDelete (name (target association)) in
     if del then writeFieldOrThrow setDelete None else ret tt) st2 /\
    foundModels st2 = foundModels st) as (st2 & -> & Hst2).
  { unfold addHiddenManyToManyModel.
    rewrite bool_decide_eq_true_2 by done. simpl.
    unfold bind at 1, getFoundModels. rewrite Htarget.
    unfold bind at 1.
    destruct (getThroughModelOperations_spec this association st)
      as (st2 & -> & Hst2).
    rewrite Hthrough in *. by exists st2. }
  unfold bind, readFlag, hasWriteFlag.
  destruct t as [tbl sel ins upd del].
  destruct ins, upd, del; simpl;
    repeat (rewrite ?Hst2, ?Htarget; simpl); done.
Qed.

Lemma returns_Return {A} (o : Outcome A) :
  returns o = true -> exists a st', o = Return a st'.
Proof. destruct o as [a st'|]; [|done]. by exists a, st'. Qed.
End CompletionStep.

(** ** The completion pass as a whole *)

Section CompletionPass.
Context (this : SequelizeParser).

Lemma pass_reaches_model (R : relation ParserState) `{!PreOrder R}
    st st' modelName :
  (forall k m a,
     availableModels this !! k = Some m ->
     a ∈ Dict.values (associations m) ->
     stable R (addHiddenManyToManyModel this a)) ->
  addHiddenManyToManyModels this st = Return tt st' ->
  modelName ∈ Dict.keys (foundModels st) ->
  exists model s1 s2,
    availableModels this !! modelName = Some model /\
    R st s1 /\
    forEach (addHiddenManyToManyModel this)
      (Dict.values (associations model)) s1 = Return tt s2 /\
    R s2 st'.
Proof.
  intros Hstep Hrun Hk.
  unfold addHiddenManyToManyModels, bind at 1, getFoundModels in Hrun.
  apply (forEach_Return_elem R) with (x := modelName) in Hrun
    as (s1 & s2 & H1 & Hbody & H2); [| |done].
  - destruct (availableModels this !! modelName) as [model|]; [|done].
    by exists model, s1, s2.
  - apply Forall_forall. intros k _.
    destruct (availableModels this !! k) as [m|] eqn:Hm;
      [|apply stable_throw, _].
    apply stable_forEach; [apply _|]. apply Forall_forall. intros a Ha.
    by eapply Hstep.
Qed.

Lemma pass_reaches_step (R : relation ParserState) `{!PreOrder R}
    st st' modelName model a :
  (forall k m a,
     availableModels this !! k = Some m ->
     a ∈ Dict.values (associations m) ->
     stable R (addHiddenManyToManyModel this a)) ->
  addHiddenManyToManyModels this st = Return tt st' ->
  modelName ∈ Dict.keys (foundModels st) ->
  availableModels this !! modelName = Some model ->
  a ∈ Dict.values (associations model) ->
  exists s1 s2,
    R st s1 /\
    addHiddenManyToManyModel this a s1 = Return tt s2 /\
    R s2 st'.
Proof.
  intros Hstep Hrun Hk Hm Ha.
  destruct (pass_reaches_model R st st' modelName Hstep Hrun Hk)
    as (model' & sa & sb & Hm' & Hsa & Hloop & Hsb).
  assert (model' = model) as -> by congruence.
  apply (forEach_Return_elem R) with (x := a) in Hloop
    as (s1 & s2 & H1 & Hrun_a & H2); [| |done].
  - exists s1, s2. split; [by etrans|]. split; [done|]. by etrans.
  - apply Forall_forall. intros a' Ha'. by eapply Hstep.
Qed.
End CompletionPass.

Lemma mergeFlags_new t model :
  mergeFlags t (newModelOperations model)
  = mkOps (getSequelizeModelTableName model) true
      (isInsert t) (isUpdate t) (isDelete t).
Proof. reflexivity. Qed.

(** C2 fails on the code.  The registry holds [User], [Role], [Tag] and
    [UserRole]; [User] lists [tags] (many-to-many to [Tag] through
    [UserTag], which is not registered) before [roles] (many-to-many to
    [Role] through [UserRole]).  The traversal of
    [import { User } from './models'; Role.create(); Tag.create();]
    returns with records for [User], [Role] (insert) and [Tag] (insert).
    At that point [User] is in the store, its association [roles]
    resolves to the registered [UserRole], [UserRole] has no record and
    the target [Role] has one with insert set: everything the claim asks
    for.  The completion pass nevertheless leaves no record for
    [UserRole]: at [User.tags], which comes first, it reports the missing
    [UserTag] and throws on writing the insert flag of [Tag] through the
    undefined through-record, so [User.roles] is never reached. *)
Lemma C2_completion_pass_stops_before_join :
  let this := mkParser modelsWithoutTagJoin noOptions sampleChecker
                [createRoleAndTagFile] in
  let traversed :=
    mkState [ selectOnly userRef;
              ("Role", mkOps "roles" true true false false);
              ("Tag", mkOps "tags" true true false false) ] [] in
  let stopped :=
    mkState (foundModels traversed)
      [ ThroughModelNotFound "UserTag" BelongsToMany "User" ] in
  forEach
    (fun sourceFile =>
       if isDeclarationFile sourceFile then ret tt
       else forEach (nodeVisitor this) (statements sourceFile))
    (getSourceFiles this) initialState = Return tt traversed /\
  "User" ∈ Dict.keys (foundModels traversed) /\
  availableModels this !! "User" = Some TaggedUser /\
  rolesOfUser ∈ Dict.values (associations TaggedUser) /\
  resolveThrough this rolesOfUser = Some UserRole /\
  Dict.get "UserRole" (foundModels traversed) = None /\
  Dict.get "Role" (foundModels traversed)
  = Some (mkOps "roles" true true false false) /\
  addHiddenManyToManyModels this traversed
  = Throw (TypeError "Cannot set properties of undefined") stopped /\
  Dict.get "UserRole" (foundModels stopped) = None /\
  getModelsFromSourceFiles (sampleHost [createRoleAndTagFile]) "/app"
    modelsWithoutTagJoin noOptions
  = Throw (TypeError "Cannot set properties of undefined") stopped.
Proof.
  repeat split; try (vm_compute; reflexivity).
  - vm_compute. apply list_elem_of_here.
  - vm_compute. apply list_elem_of_further, list_elem_of_here.
Qed.

(** C5 fails on the code.  The configuration is found, the traversal of
    [import { User } from './models'; Role.create();] goes through, and
    the completion pass throws: [User] has a many-to-many association to
    [Role] whose join model [UserRole] is not registered, the target
    [Role] has its insert flag set, and the pass writes that flag through
    the undefined through-record. *)
Lemma C5_completion_pass_throws :
  let host := sampleHost [createRoleFile] in
  is_Some (findConfigFile host "/app" "tsconfig.json") /\
  getModelsFromSourceFiles host "/app" modelsWithoutJoin noOptions
  = Throw (TypeError "Cannot set properties of undefined")
      (mkState [ selectOnly userRef;
                 ("Role", mkOps "roles" true true false false) ]
         [ ThroughModelNotFound "UserRole" BelongsToMany "User" ]).
Proof. split; [by eexists|]. vm_compute. reflexivity. Qed.

(** ** Idempotence of the completion pass *)

#[global] Instance changesOnlyJoins_preorder this :
  PreOrder (changesOnlyJoins this).
Proof.
  split.
  - intros st k Hne. done.
  - intros s1 s2 s3 H12 H23 k Hne.
    destruct (decide (Dict.get k (foundModels s2) = Dict.get k (foundModels s1)))
      as [Heq|Hne'].
    + apply H23. congruence.
    + by apply H12.
Qed.

#[global] Instance completes_preorder this : PreOrder (completes this).
Proof.
  split.
  - intros st. split; reflexivity.
  - intros s1 s2 s3 [E12 C12] [E23 C23]. split; by etrans.
Qed.

Section Idempotence.
Context (this : SequelizeParser).

Lemma resolveThrough_registered a J :
  resolveThrough this a = Some J ->
  exists n, availableModels this !! n = Some J.
Proof.
  unfold resolveThrough. repeat case_match; try done. intros H'. by eexists.
Qed.

Lemma resolveThrough_kind a J :
  resolveThrough this a = Some J -> associationType a = BelongsToMany.
Proof.
  unfold resolveThrough. case_bool_decide; [done|]. by simpl.
Qed.

Lemma step_completes k m a :
  availableModels this !! k = Some m ->
  a ∈ Dict.values (associations m) ->
  stable (completes this) (addHiddenManyToManyModel this a).
Proof.
  intros Hm Ha st. split; [apply evolves_addHiddenManyToManyModel|].
  intros k' Hne.
  destruct (decide (associationType a = BelongsToMany)) as [Hkind|Hkind];
    [|by rewrite step_skips in Hne by by left].
  destruct (Dict.get (name (target a)) (foundModels st)) as [t|] eqn:Ht;
    [|by rewrite step_skips in Hne by by right].
  destruct (resolveThrough this a) as [J|] eqn:HJ.
  - exists J. split; [by exists k, m, a|].
    destruct (step_resolved this a t J st Ht HJ) as (st' & Hrun & Hfound).
    rewrite Hrun in Hne. simpl in Hne.
    destruct (decide (k' = name (self J))) as [|Hk']; [done|].
    exfalso. apply Hne.
    rewrite Hfound, DictFacts.get_alter, decide_False, get_ensureRecord by done.
    destruct (Dict.get k' (foundModels st)); [done|]. by rewrite decide_False.
  - destruct (step_unresolved this a t st Hkind Ht HJ) as [Hsame _].
    by rewrite Hsame in Hne.
Qed.

Lemma pass_completes : stable (completes this) (addHiddenManyToManyModels this).
Proof.
  unfold addHiddenManyToManyModels.
  apply stable_bind; [apply _|apply stable_getFoundModels, _|].
  intros found. apply stable_forEach; [apply _|].
  apply Forall_forall. intros k _.
  destruct (availableModels this !! k) as [m|] eqn:Hm;
    [|apply stable_throw, _].
  apply stable_forEach; [apply _|]. apply Forall_forall. intros a Ha.
  by eapply step_completes.
Qed.

Lemma target_unchanged k m a s s' :
  joinsStandAlone this ->
  availableModels this !! k = Some m ->
  a ∈ Dict.values (associations m) ->
  associationType a = BelongsToMany ->
  changesOnlyJoins this s s' ->
  Dict.get (name (target a)) (foundModels s')
  = Dict.get (name (target a)) (foundModels s).
Proof.
  intros Hjoins Hm Ha Hkind Hchanges.
  destruct (decide (Dict.get (name (target a)) (foundModels s')
                    = Dict.get (name (target a)) (foundModels s)))
    as [|Hne]; [done|].
  apply Hchanges in Hne as (J & HJ & Heq).
  destruct (Hjoins J HJ) as [_ Hnot]. exfalso. by eapply Hnot.
Qed.

Lemma merged_below t j0 j : ops_le (mergeFlags t j0) j -> mergeFlags t j = j.
Proof.
  intros (_ & _ & Hi & Hu & Hd).
  destruct t as [tt ts ti tu td], j as [jt js ji ju jd]. simpl in *.
  unfold mergeFlags. simpl. f_equal.
  - destruct ti, ji; simpl; try done. exfalso. apply Hi.
    by rewrite orb_true_r.
  - destruct tu, ju; simpl; try done. exfalso. apply Hu.
    by rewrite orb_true_r.
  - destruct td, jd; simpl; try done. exfalso. apply Hd.
    by rewrite orb_true_r.
Qed.

(** After a run that returns, nothing is left to do. *)
Lemma pass_completed st st1 :
  registryKeyedByName this ->
  joinsStandAlone this ->
  addHiddenManyToManyModels this st = Return tt st1 ->
  completed this (foundModels st1).
Proof.
  intros Hkeyed Hjoins Hrun k Hk1.
  pose proof (pass_completes st) as [_ Hchanges]. rewrite Hrun in Hchanges.
  simpl in Hchanges.
  destruct (decide (k ∈ Dict.keys (foundModels st))) as [Hk|Hk].
  - destruct (pass_reaches_model this (completes this) st st1 k
                step_completes Hrun Hk) as (m & _ & _ & Hm & _).
    exists m. split; [exact Hm|]. intros a t Ha Hkind Htarget1.
    destruct (pass_reaches_step this (completes this) st st1 k m a
                step_completes Hrun Hk Hm Ha)
      as (s1 & s2 & [_ H1] & Hstep & [E2 C2]).
    pose proof (step_completes k m a Hm Ha s1) as [_ C12].
    rewrite Hstep in C12. simpl in C12.
    assert (Dict.get (name (target a)) (foundModels s1) = Some t) as Ht1.
    { rewrite <- Htarget1.
      rewrite (target_unchanged k m a s2 st1), (target_unchanged k m a s1 s2);
        done. }
    destruct (resolveThrough this a) as [J|] eqn:HJ.
    + destruct (step_resolved this a t J s1 Ht1 HJ) as (s2' & Hrun' & Hfound).
      assert (s2' = s2) as -> by congruence.
      destruct (get_ensureRecord_self (self J) (foundModels s1))
        as (j0 & Hj0 & _).
      assert (Dict.get (name (self J)) (foundModels s2)
              = Some (mergeFlags t j0)) as Hj2.
      { by rewrite Hfound, DictFacts.get_alter, decide_True, Hj0. }
      destruct (grows_kept _ _ E2 _ _ Hj2) as (j & Hj & Hle).
      exists j. split; [exact Hj|]. by eapply merged_below.
    + destruct (step_unresolved this a t s1 Hkind Ht1 HJ) as [_ Hret].
      rewrite Hstep in Hret. simpl in Hret.
      by destruct (hasWriteFlag t).
  - apply DictFacts.keys_get in Hk1 as [r1 Hr1].
    destruct (Hchanges k) as (J & HJ & ->).
    { rewrite Hr1, DictFacts.get_None_keys by done. done. }
    pose proof HJ as (k' & m' & a' & _ & _ & Hresolve).
    apply resolveThrough_registered in Hresolve as [n Hn].
    pose proof (Hkeyed _ _ Hn) as <-.
    exists J. split; [exact Hn|]. intros a t Ha Hkind _.
    destruct (Hjoins J HJ) as [Hnone _]. exfalso. by eapply Hnone.
Qed.

(** On a completed store the pass returns and changes no record. *)
Lemma completed_noop found st :
  completed this found ->
  foundModels st = found ->
  exists st2,
    addHiddenManyToManyModels this st = Return tt st2 /\
    foundModels st2 = found.
Proof.
  intros Hdone Hst.
  unfold addHiddenManyToManyModels, bind at 1, getFoundModels. rewrite Hst.
  apply forEach_unchanged; [|done].
  apply Forall_forall. intros k Hk st0 Hst0.
  destruct (Hdone k Hk) as (m & -> & Hassoc).
  apply forEach_unchanged; [|done].
  apply Forall_forall. intros a Ha s Hs.
  destruct (decide (associationType a = BelongsToMany)) as [Hkind|Hkind];
    [|exists s; split; [apply step_skips; by left|done]].
  destruct (Dict.get (name (target a)) found) as [t|] eqn:Ht;
    [|exists s; split; [apply step_skips; right; by rewrite Hs|done]].
  specialize (Hassoc a t Ha Hkind Ht).
  destruct (resolveThrough this a) as [J|] eqn:HJ.
  - destruct Hassoc as (j & Hj & Hmerge).
    destruct (step_resolved this a t J s) as (s' & Hrun & Hfound);
      [by rewrite Hs|done|].
    exists s'. split; [exact Hrun|].
    rewrite Hfound, Hs, (ensureRecord_present _ _ j) by done.
    apply DictFacts.alter_fixed. intros v Hv. congruence.
  - destruct (step_unresolved this a t s Hkind) as [Hsame Hret];
      [by rewrite Hs|done|].
    rewrite Hassoc in Hret. apply returns_Return in Hret as ([] & s' & Hrun).
    exists s'. split; [exact Hrun|]. rewrite Hrun in Hsame. simpl in Hsame.
    congruence.
Qed.
End Idempotence.

(** C7, amended.  On a registry keyed by the names of its entities in
    which no join entity is itself the source or the target of a
    many-to-many association, a store on which the completion pass has
    run to its end is a fixed point of the pass: a second run returns and
    leaves the store exactly as it is, with the same records in the same
    order. *)
Theorem C7_completion_pass_idempotent this st st1 :
  registryKeyedByName this ->
  joinsStandAlone this ->
  addHiddenManyToManyModels this st = Return tt st1 ->
  exists st2,
    addHiddenManyToManyModels this st1 = Return tt st2 /\
    foundModels st2 = foundModels st1.
Proof.
  intros Hkeyed Hjoins Hrun.
  apply completed_noop; [|done]. by eapply pass_completed.
Qed.

Lemma sampleModels_lookup k m :
  sampleModels !! k = Some m ->
  (k = "User" /\ m = User) \/ (k = "Role" /\ m = Role) \/
  (k = "UserRole" /\ m = UserRole).
Proof.
  unfold sampleModels. rewrite !lookup_insert_Some, lookup_empty.
  intros [[<- <-]|[_ [[<- <-]|[_ [[<- <-]|[_ ?]]]]]]; auto 6; done.
Qed.

Lemma sampleModels_keyed files : registryKeyedByName (sampleParser files).
Proof.
  intros k m Hm. simpl in Hm.
  by apply sampleModels_lookup in Hm as [[-> ->]|[[-> ->]|[-> ->]]].
Qed.

Lemma sampleModels_join files J :
  isJoinEntity (sampleParser files) J -> J = UserRole.
Proof.
  intros (k & m & a & Hm & Ha & HJ). simpl in Hm.
  apply sampleModels_lookup in Hm as [[-> ->]|[[-> ->]|[-> ->]]];
    simpl in Ha; set_unfold in Ha.
  - destruct Ha as [->|[]]. vm_compute in HJ. by injection HJ as <-.
  - destruct Ha as [->|[]]. vm_compute in HJ. by injection HJ as <-.
  - done.
Qed.

Lemma sampleModels_joinsStandAlone files :
  joinsStandAlone (sampleParser files).
Proof.
  intros J HJ. apply sampleModels_join in HJ as ->. split.
  - intros a Ha. simpl in Ha. by set_unfold in Ha.
  - intros k m a Hm Ha Hkind. simpl in Hm.
    apply sampleModels_lookup in Hm as [[-> ->]|[[-> ->]|[-> ->]]];
      simpl in Ha; set_unfold in Ha.
    + by destruct Ha as [->|[]].
    + by destruct Ha as [->|[]].
    + done.
Qed.

(** C7 on the sample project, from the store [User], [Role] with insert. *)
Lemma C7_completion_pass_idempotent_witness :
  let this := sampleParser [] in
  let st := mkState [ selectOnly userRef;
                      ("Role", mkOps "roles" true true false false) ] [] in
  let st1 := finalState (addHiddenManyToManyModels this st) in
  registryKeyedByName this /\
  joinsStandAlone this /\
  addHiddenManyToManyModels this st = Return tt st1 /\
  exists st2,
    addHiddenManyToManyModels this st1 = Return tt st2 /\
    foundModels st2 = foundModels st1.
Proof.
  intros this st st1.
  split; [apply sampleModels_keyed|].
  split; [apply sampleModels_joinsStandAlone|].
  assert (addHiddenManyToManyModels this st = Return tt st1) as Hrun
    by (vm_compute; reflexivity).
  split; [exact Hrun|].
  apply (C7_completion_pass_idempotent this st st1).
  - apply sampleModels_keyed.
  - apply sampleModels_joinsStandAlone.
  - exact Hrun.
Defined.

(** C7 as stated fails.  The run over a file that imports [Student],
    [Course] and [Tag] ends with the completion pass, which adds the join
    entity [Enrollment]; [Enrollment] has a many-to-many association of
    its own, to [Tag] through [EnrollmentTag], which the pass only sees
    once [Enrollment] is in the store: a second run of the pass adds the
    record of [EnrollmentTag]. *)
Lemma C7_counterexample :
  exists st1 st2,
    visitAllSourceFiles schoolParser initialState = Return tt st1 /\
    addHiddenManyToManyModels schoolParser st1 = Return tt st2 /\
    Dict.keys (foundModels st1) = ["Student"; "Course"; "Tag"; "Enrollment"] /\
    Dict.keys (foundModels st2)
    = ["Student"; "Course"; "Tag"; "Enrollment"; "EnrollmentTag"] /\
    foundModels st2 <> foundModels st1.
Proof.
  eexists. eexists.
  split; [vm_compute; reflexivity|].
  split; [vm_compute; reflexivity|].
  split; [reflexivity|]. split; [reflexivity|]. discriminate.
Qed.

(** * Further properties of the code *)

(** ** Import declarations *)

Lemma get_ensureRecords_kept models found k r :
  Dict.get k found = Some r ->
  Dict.get k (ensureRecords models found) = Some r.
Proof.
  unfold ensureRecords. revert found.
  induction models as [|m models IH]; intros found Hk; simpl; [done|].
  apply IH. by rewrite get_ensureRecord, Hk.
Qed.

Lemma get_ensureRecords_new models found k r :
  Dict.get k found = None ->
  Dict.get k (ensureRecords models found) = Some r ->
  exists m, m ∈ models /\ k = name (self m) /\
            r = newModelOperations (self m).
Proof.
  unfold ensureRecords. revert found.
  induction models as [|m models IH]; intros found Hk; simpl.
  - congruence.
  - intros Hget.
    destruct (Dict.get k (ensureRecord (self m) found)) as [r0|] eqn:Hm.
    + pose proof (get_ensureRecords_kept models _ _ _ Hm) as Hkept.
      unfold ensureRecords in Hkept. rewrite Hkept in Hget.
      injection Hget as <-.
      rewrite get_ensureRecord, Hk in Hm.
      case_decide; [|done]. injection Hm as <-.
      exists m. split; [apply list_elem_of_here|done].
    + destruct (IH _ Hm Hget) as (m' & Hin & Heq).
      exists m'. split; [by apply list_elem_of_further|done].
Qed.

Lemma get_ensureRecords_present models found m :
  m ∈ models ->
  is_Some (Dict.get (name (self m)) (ensureRecords models found)).
Proof.
  unfold ensureRecords. revert found.
  induction models as [|m0 models IH]; intros found Hin; simpl.
  - by apply elem_of_nil in Hin.
  - apply elem_of_cons in Hin as [->|Hin]; [|by apply IH].
    destruct (get_ensureRecord_self (self m0) found) as (r & Hr & _).
    pose proof (get_ensureRecords_kept models _ _ _ Hr) as Hkept.
    unfold ensureRecords in Hkept. by rewrite Hkept.
Qed.

Lemma ensureRecords_fixed models found :
  (forall m, m ∈ models -> is_Some (Dict.get (name (self m)) found)) ->
  ensureRecords models found = found.
Proof.
  unfold ensureRecords.
  induction models as [|m models IH]; intros Hall; simpl; [done|].
  destruct (Hall m (list_elem_of_here _ _)) as [r Hr].
  rewrite (ensureRecord_present _ _ r Hr). apply IH.
  intros m' Hin. apply Hall. by apply list_elem_of_further.
Qed.

Lemma processImportDeclarationNode_spec this moduleSpecifier bindings st :
  processImportDeclarationNode this moduleSpecifier bindings st =
  Return tt
    (mkState
       (if fromOtherModule this moduleSpecifier then foundModels st
        else ensureRecords (importedModels this bindings) (foundModels st))
       (console st)).
Proof.
  unfold processImportDeclarationNode, fromOtherModule.
  match goal with
  | |- context [if ?b then ret tt else _] => destruct b
  end; [by destruct st|].
  unfold importedModels, ensureRecords.
  destruct bindings as [|alias|elements]; simpl; try by destruct st.
  revert st. induction elements as [|specifier elements IH]; intros st; simpl.
  - by destruct st.
  - unfold bind at 1.
    destruct (availableModels this !! _) as [model|]; simpl.
    + unfold bind at 1, getFoundModels, ensureRecord.
      destruct (Dict.get (name (self model)) (foundModels st)) eqn:Hget;
        simpl.
      * apply IH.
      * rewrite IH. done.
    + apply IH.
Qed.

(** X1.  An import declaration never throws, logs nothing, leaves every
    existing record exactly as it is, and every record it adds is the
    select-only record (table name, select set, no write flag) of a
    registered model named by one of its import specifiers; unless the
    declaration is filtered out, each such model has a record
    afterwards. *)
Theorem X1_import_adds_select_only_records
    this moduleSpecifier bindings st :
  exists st',
    processImportDeclarationNode this moduleSpecifier bindings st
      = Return tt st' /\
    console st' = console st /\
    (forall k r, Dict.get k (foundModels st) = Some r ->
                 Dict.get k (foundModels st') = Some r) /\
    (forall k r,
       Dict.get k (foundModels st) = None ->
       Dict.get k (foundModels st') = Some r ->
       exists m, m ∈ importedModels this bindings /\
                 k = name (self m) /\
                 r = mkOps (getSequelizeModelTableName (self m))
                       true false false false) /\
    (fromOtherModule this moduleSpecifier = false ->
     forall m, m ∈ importedModels this bindings ->
               is_Some (Dict.get (name (self m)) (foundModels st'))).
Proof.
  eexists. split; [apply processImportDeclarationNode_spec|]. simpl.
  split; [done|]. destruct (fromOtherModule this moduleSpecifier).
  - split; [done|]. split; [congruence|done].
  - split; [intros k r; apply get_ensureRecords_kept|].
    split; [intros k r; apply get_ensureRecords_new|].
    intros _ m. apply get_ensureRecords_present.
Qed.

(** X2.  An import declaration leaves the state untouched when the
    options restrict the analysis to another module than its literal
    module specifier, when it has no named bindings (a default or a
    namespace import), and when none of its specifiers names a registered
    model; the name looked up is the original one in [Original as Local],
    never the local alias. *)
Theorem X2_import_contributes_nothing this moduleSpecifier st :
  (forall bindings,
     fromOtherModule this moduleSpecifier = true ->
     processImportDeclarationNode this moduleSpecifier bindings st
     = Return tt st) /\
  processImportDeclarationNode this moduleSpecifier NoNamedBindings st
    = Return tt st /\
  (forall alias,
     processImportDeclarationNode this moduleSpecifier (NamespaceImport alias)
       st = Return tt st) /\
  (forall elements,
     (forall original localName,
        mkImportSpecifier (Some original) localName ∈ elements ->
        availableModels this !! original = None) ->
     (forall localName,
        mkImportSpecifier None localName ∈ elements ->
        availableModels this !! localName = None) ->
     processImportDeclarationNode this moduleSpecifier (NamedImports elements)
       st = Return tt st).
Proof.
  repeat split; intros; rewrite processImportDeclarationNode_spec.
  - rewrite H. by destruct st.
  - destruct (fromOtherModule _ _); by destruct st.
  - destruct (fromOtherModule _ _); by destruct st.
  - assert (importedModels this (NamedImports elements) = []) as ->.
    { simpl. induction elements as [|[original localName] elements IH];
        simpl; [done|].
      assert (availableModels this !! default localName original = None)
        as ->.
      { destruct original as [original|]; simpl.
        - apply (H original localName), list_elem_of_here.
        - apply H0, list_elem_of_here. }
      apply IH.
      - intros o l Hin. apply (H o l). by apply list_elem_of_further.
      - intros l Hin. apply H0. by apply list_elem_of_further. }
    destruct (fromOtherModule _ _); by destruct st.
Qed.

(** X2 at [import { Account as User } from './models']: [Account] is not
    registered, the alias [User] is. *)
Lemma X2_import_contributes_nothing_witness :
  is_Some (availableModels (sampleParser []) !! "User") /\
  processImportDeclarationNode (sampleParser [])
    (Token StringLiteral "'./models'")
    (NamedImports [mkImportSpecifier (Some "Account") "User"]) initialState
  = Return tt initialState.
Proof.
  split; [by eexists|].
  destruct (X2_import_contributes_nothing (sampleParser [])
              (Token StringLiteral "'./models'") initialState)
    as (_ & _ & _ & Hnone).
  apply Hnone.
  - intros original localName Hin. set_unfold in Hin.
    destruct Hin as [[= -> ->]|[]]. reflexivity.
  - intros localName Hin. set_unfold in Hin. by destruct Hin as [|[]].
Defined.

(** X3.  Processing an import declaration twice is the same as processing
    it once: the second pass finds every record in place and changes
    nothing. *)
Theorem X3_import_idempotent this moduleSpecifier bindings st :
  let st1 :=
    finalState
      (processImportDeclarationNode this moduleSpecifier bindings st) in
  processImportDeclarationNode this moduleSpecifier bindings st1
  = Return tt st1.
Proof.
  simpl. rewrite !processImportDeclarationNode_spec. simpl.
  destruct (fromOtherModule this moduleSpecifier); [done|].
  rewrite (ensureRecords_fixed _ (ensureRecords _ _)); [done|].
  intros m. apply get_ensureRecords_present.
Qed.

(** ** The entity resolver *)

Lemma firstSome_Some {A B} (f : A -> option B) (l : list A) b :
  firstSome f l = Some b -> exists x, x ∈ l /\ f x = Some b.
Proof.
  induction l as [|x l IH]; simpl; [done|].
  destruct (f x) as [b'|] eqn:Hx.
  - intros [= <-]. exists x. split; [apply list_elem_of_here|done].
  - intros Hl. destruct (IH Hl) as (y & Hy & Hfy).
    exists y. split; [by apply list_elem_of_further|done].
Qed.

Lemma firstFound_Some {A B} (f : A -> M (option B)) (l : list A) st b st' :
  firstFound f l st = Return (Some b) st' ->
  exists x s s', x ∈ l /\ f x s = Return (Some b) s'.
Proof.
  revert st. induction l as [|x l IH]; intros st; simpl; [done|].
  unfold bind. destruct (f x st) as [[b'|] s1|] eqn:Hx; [| |done].
  - intros [= <- <-]. exists x, st, s1.
    split; [apply list_elem_of_here|done].
  - intros Hl. destruct (IH _ Hl) as (y & s & s' & Hy & Hfy).
    exists y, s, s'. split; [by apply list_elem_of_further|done].
Qed.

Lemma findModelInHeritageType_registered this node t st m st' :
  findModelInHeritageType this node t st = Return (Some m) st' ->
  exists k, availableModels this !! k = Some m.
Proof.
  unfold findModelInHeritageType.
  destruct (firstSome _ (typeArguments t)) as [m0|] eqn:Hargs.
  - intros [= <- <-]. apply firstSome_Some in Hargs as (a & _ & Ha).
    destruct (truthy a); [|done]. by exists a.
  - destruct (heritageExpression t) as [args|text|].
    + intros [= Hcall <-]. apply firstSome_Some in Hcall as (a & _ & Ha).
      by exists a.
    + destruct (availableModels this !! text) as [m0|] eqn:Htext.
      * intros [= <- <-]. by exists text.
      * by unfold bind.
    + by unfold bind.
Qed.

Lemma findModelFromNode_registered this node st m st' :
  findModelFromNode this node st = Return (Some m) st' ->
  exists k, availableModels this !! k = Some m.
Proof.
  unfold findModelFromNode.
  destruct (availableModels this !! getText node) as [m0|] eqn:Htext.
  { intros [= <- <-]. by eexists. }
  destruct (negb (isIdentifier node)); [done|].
  destruct (availableModels this !! from_option _ _ _) as [m0|] eqn:Hsym.
  { intros [= <- <-]. by eexists. }
  unfold bind at 1.
  destruct (firstFound _ _ st) as [[m0|] s1|] eqn:Hdecl; [| |done].
  - intros [= <- <-].
    apply firstFound_Some in Hdecl as (d & s & s' & _ & Hd).
    destruct d as [clauses|clauses| |]; [| | |done].
    + apply firstFound_Some in Hd as (h & s2 & s2' & _ & Hh).
      apply firstFound_Some in Hh as (t & s3 & s3' & _ & Ht).
      by eapply findModelInHeritageType_registered.
    + apply firstFound_Some in Hd as (h & s2 & s2' & _ & Hh).
      apply firstFound_Some in Hh as (t & s3 & s3' & _ & Ht).
      by eapply findModelInHeritageType_registered.
    + by unfold bind in Hd.
  - by unfold bind.
Qed.

(** X4.  The resolver is sound and pure on the store: the model it
    returns, if any, is an entry of the registry, and the usage records
    are the same before and after, whether it resolves or not. *)
Theorem X4_resolver_sound this node st result st' :
  findModelFromNode this node st = Return result st' ->
  foundModels st' = foundModels st /\
  forall m, result = Some m -> exists k, availableModels this !! k = Some m.
Proof.
  intros Hrun. split.
  - by eapply findModelFromNode_sameRecords.
  - intros m ->. by eapply findModelFromNode_registered.
Qed.

(** X4 on the sample project, at the variable [user]. *)
Lemma X4_resolver_sound_witness :
  exists k, availableModels (sampleParser []) !! k = Some User.
Proof.
  destruct (X4_resolver_sound (sampleParser []) (Token Identifier "user")
              initialState (Some User) initialState eq_refl) as [_ Hreg].
  by apply Hreg.
Defined.

(** X5.  When the receiver is an identifier whose text is not
    registered, whose type has a symbol name (or, without a symbol, the
    key [undefined]) that is not registered, and whose symbol has no
    declaration, the resolver returns nothing and reports exactly one
    diagnostic, naming the identifier and its type; a call through such a
    receiver leaves the usage records as they are and only adds that
    diagnostic. *)
Theorem X5_unresolved_receiver_reported
    this receiver expression args third st :
  let node := Token Identifier receiver in
  let type := getTypeAtLocation this node in
  availableModels this !! receiver = None ->
  availableModels this !! from_option getName "undefined" (getSymbol type)
    = None ->
  from_option getDeclarations [] (getSymbol type) = [] ->
  getFirstToken expression = Some node ->
  3 <= getChildCount expression ->
  getChildAt expression 2 = Some third ->
  isIdentifier third = true ->
  isSequelizeModelWriteMethod (getText third) = true ->
  let st' :=
    mkState (foundModels st)
      (console st ++ [ModelNotFound receiver (typeToString type)]) in
  findModelFromNode this node st = Return None st' /\
  processCallExpression this expression args st = Return tt st'.
Proof.
  intros node type Htext Hsym Hdecl Hfirst Hcount Hthird Hid Hwrite st'.
  assert (findModelFromNode this node st = Return None st') as Hfind.
  { unfold findModelFromNode. simpl. rewrite Htext. fold node type.
    rewrite Hsym, Hdecl. done. }
  split; [exact Hfind|].
  rewrite (processCallExpression_classified this _ _ node third) by done.
  unfold bind. by rewrite Hfind.
Qed.

(** X5 at [request.destroy()], [request] being of type [any]. *)
Lemma X5_unresolved_receiver_reported_witness :
  processCallExpression (sampleParser [])
    (propertyAccess (Token Identifier "request") "destroy") [] initialState
  = Return tt (mkState [] [ModelNotFound "request" "any"]).
Proof.
  apply (X5_unresolved_receiver_reported (sampleParser []) "request"
           (propertyAccess (Token Identifier "request") "destroy") []
           (Token Identifier "destroy") initialState);
    reflexivity.
Defined.

(** X6.  When the leftmost token of the callee is not an identifier and
    its text is not registered (as [this] in [this.users.create()]), the
    call changes nothing and reports nothing. *)
Theorem X6_non_identifier_receiver_silent
    this expression args firstNode st :
  getFirstToken expression = Some firstNode ->
  isIdentifier firstNode = false ->
  availableModels this !! getText firstNode = None ->
  processCallExpression this expression args st = Return tt st.
Proof.
  intros Hfirst Hid Htext. unfold processCallExpression. rewrite Hfirst.
  case_bool_decide; [done|].
  destruct (getChildAt expression 2) as [third|]; [|done].
  destruct (_ || _); [done|].
  unfold bind, findModelFromNode. by rewrite Htext, Hid.
Qed.

(** X6 at [this.users.create()]. *)
Lemma X6_non_identifier_receiver_silent_witness :
  processCallExpression (sampleParser [])
    (propertyAccess (propertyAccess (Token ThisKeyword "this") "users")
       "create") [] initialState
  = Return tt initialState.
Proof.
  apply (X6_non_identifier_receiver_silent (sampleParser []) _ []
           (Token ThisKeyword "this")); reflexivity.
Defined.

(** X7.  The entity a call is attributed to is the one the leftmost
    token of the callee resolves to, not the object the method is called
    on: two callees with the same leftmost token and the same third child
    are processed alike. *)
Theorem X7_leftmost_token_decides this e1 e2 args st :
  getFirstToken e1 = getFirstToken e2 ->
  3 <= getChildCount e1 ->
  3 <= getChildCount e2 ->
  getChildAt e1 2 = getChildAt e2 2 ->
  processCallExpression this e1 args st
  = processCallExpression this e2 args st.
Proof.
  intros Hfirst H1 H2 Hthird. unfold processCallExpression.
  rewrite Hfirst, Hthird.
  by rewrite !bool_decide_eq_false_2 by lia.
Qed.

(** X7 at [User.profile.destroy()]: DELETE goes to [User], as for
    [User.destroy()]. *)
Lemma X7_leftmost_token_decides_witness :
  processCallExpression (sampleParser [])
    (propertyAccess (propertyAccess (Token Identifier "User") "profile")
       "destroy") [] initialState
  = Return tt (mkState [("User", mkOps "users" true false false true)] []).
Proof.
  rewrite (X7_leftmost_token_decides (sampleParser []) _
             (propertyAccess (Token Identifier "User") "destroy")).
  - reflexivity.
  - reflexivity.
  - unfold getChildCount. simpl. lia.
  - unfold getChildCount. simpl. lia.
  - reflexivity.
Defined.

(** X8.  Heritage unwrapping.  For an identifier whose text and whose
    type's symbol name are not registered, and whose symbol is declared
    first by a class or an interface whose first heritage type is [t]:
    the resolver returns, without any diagnostic, the registered model
    named by the first type argument of [t] (as in
    [extends Omit<User, 'id'>]), whatever the base expression is; without
    type arguments, the one named by the first argument of a base call
    (as in [extends OmitType(User)]), or the one the base identifier
    names (as in [extends User]). *)
Theorem X8_heritage_unwrapping
    this receiver sym isClass t types clauses declarations m st :
  let node := Token Identifier receiver in
  availableModels this !! receiver = None ->
  getSymbol (getTypeAtLocation this node) = Some sym ->
  availableModels this !! getName sym = None ->
  getDeclarations sym =
    (if isClass : bool
     then ClassDeclaration ((t :: types) :: clauses)
     else InterfaceDeclaration ((t :: types) :: clauses)) :: declarations ->
  (exists a rest,
     typeArguments t = a :: rest /\ a <> EmptyString /\
     availableModels this !! a = Some m) \/
  (typeArguments t = [] /\
   ((exists arg rest,
       heritageExpression t = HeritageCall (arg :: rest) /\
       availableModels this !! arg = Some m) \/
    (exists text,
       heritageExpression t = HeritageIdentifier text /\
       availableModels this !! text = Some m))) ->
  findModelFromNode this node st = Return (Some m) st.
Proof.
  intros node Htext Hsym Hname Hdecl Hfound.
  unfold findModelFromNode. simpl. rewrite Htext.
  fold node. rewrite Hsym. simpl. rewrite Hname, Hdecl.
  assert (findModelInHeritageType this node t st = Return (Some m) st)
    as Ht.
  { unfold findModelInHeritageType.
    destruct Hfound as [(a & rest & -> & Ha & Hm)
                       |[-> [(arg & rest & -> & Hm)|(text & -> & Hm)]]];
      simpl.
    - unfold truthy. rewrite bool_decide_eq_true_2 by done. by rewrite Hm.
    - by rewrite Hm.
    - by rewrite Hm. }
  destruct isClass; simpl; unfold bind; simpl; unfold bind; rewrite Ht; done.
Qed.

(** X8 at a variable of the class [UserDto extends OmitType(User)]. *)
Lemma X8_heritage_unwrapping_witness :
  let dto :=
    mkSymbol "UserDto"
      [ClassDeclaration [[mkHeritageType [] (HeritageCall ["User"])]]] in
  let this :=
    mkParser sampleModels noOptions (fun _ => mkType (Some dto) "UserDto") [] in
  findModelFromNode this (Token Identifier "dto") initialState
  = Return (Some User) initialState.
Proof.
  intros dto this.
  apply (X8_heritage_unwrapping this "dto" dto true
           (mkHeritageType [] (HeritageCall ["User"])) [] [] [] User
           initialState); try reflexivity.
  right. split; [reflexivity|]. left. by exists "User", [].
Defined.

(** ** Calls the mixin handler skips *)

(** X9.  A mixin call that does not reach the effect stage leaves every
    usage record as it is: with fewer than two arguments nothing happens
    at all; with a first argument that is not a string literal, with a
    literal that names no association of the source entity, or with an
    association whose target is not registered, exactly one diagnostic is
    reported. *)
Theorem X9_mixin_skips_leave_store this sourceModel method st :
  isSequelizeTypescriptGeneratedWriteMethod method = true ->
  processModelTypescriptMixins this sourceModel method [] st = Return tt st /\
  (forall only,
     processModelTypescriptMixins this sourceModel method [only] st
     = Return tt st) /\
  (forall first second rest,
     isStringLiteral first = false ->
     processModelTypescriptMixins this sourceModel method
       (first :: second :: rest) st
     = Return tt
         (mkState (foundModels st)
            (console st ++
             [AssociationNameNotLiteral (name (self sourceModel)) method
                (getText first)]))) /\
  (forall raw second rest,
     Dict.get (literalText raw) (associations sourceModel) = None ->
     processModelTypescriptMixins this sourceModel method
       (Token StringLiteral raw :: second :: rest) st
     = Return tt
         (mkState (foundModels st)
            (console st ++
             [AssociationNotFound (literalText raw)
                (name (self sourceModel))]))) /\
  (forall raw second rest association,
     Dict.get (literalText raw) (associations sourceModel)
       = Some association ->
     availableModels this !! name (target association) = None ->
     processModelTypescriptMixins this sourceModel method
       (Token StringLiteral raw :: second :: rest) st
     = Return tt
         (mkState (foundModels st)
            (console st ++
             [TargetModelNotFound (name (target association))
                (literalText raw) (name (self sourceModel))]))).
Proof.
  intros Hverb. unfold processModelTypescriptMixins. rewrite Hverb. simpl.
  repeat split.
  - intros first second rest Hliteral.
    destruct first as [[] text| | |]; try done.
  - intros raw second rest Hnone. by rewrite Hnone.
  - intros raw second rest association Hassoc Htarget.
    by rewrite Hassoc, Htarget.
Qed.

(** X9 at [user.$add(relation, role)], [user.$add('orders', order)] and
    [user.$add('roles')]. *)
Lemma X9_mixin_skips_leave_store_witness :
  processModelTypescriptMixins (sampleParser []) User "$add"
    [Token Identifier "relation"; Token Identifier "role"] initialState
  = Return tt
      (mkState [] [AssociationNameNotLiteral "User" "$add" "relation"]) /\
  processModelTypescriptMixins (sampleParser []) User "$add"
    [Token StringLiteral "'orders'"; Token Identifier "order"] initialState
  = Return tt (mkState [] [AssociationNotFound "orders" "User"]) /\
  processModelTypescriptMixins (sampleParser []) User "$add"
    [Token StringLiteral "'roles'"] initialState
  = Return tt initialState.
Proof.
  destruct (X9_mixin_skips_leave_store (sampleParser []) User "$add"
              initialState eq_refl)
    as (_ & Hone & Hliteral & Hunknown & _).
  split; [|split].
  - by apply (Hliteral (Token Identifier "relation")).
  - by apply (Hunknown "'orders'").
  - apply Hone.
Defined.

(** ** Resolving the join entity *)


(** ** Resolving the join entity *)

Lemma truthy_nonempty n : n <> EmptyString -> truthy n = true.
Proof. intros Hn. unfold truthy. by apply bool_decide_eq_true. Qed.

(** X10.  [getThroughModelOperations] on an association:
    - one that is not many-to-many yields no through record and touches
      nothing, whatever its options;
    - a many-to-many one without a through option, or with the empty
      string, yields none, silently;
    - one whose through option names the model [n] (as a string, as a
      model class, or as an options object carrying either) yields the
      record of the registered model [n], created select-only if absent,
      and, when [n] is not registered, yields none and reports the
      missing join model with the source entity's name;
    - one whose options object carries no usable model yields none and
      reports an invalid through model. *)
Theorem X10_join_model_resolution this a st :
  (associationType a <> BelongsToMany ->
   getThroughModelOperations this a st = Return None st) /\
  (associationType a = BelongsToMany ->
   through a = None \/ through a = Some (ThroughString EmptyString) ->
   getThroughModelOperations this a st = Return None st) /\
  (forall t n,
     associationType a = BelongsToMany ->
     through a = Some t ->
     namesJoinModel t n ->
     n <> EmptyString ->
     getThroughModelOperations this a st =
     match availableModels this !! n with
     | Some J =>
         Return (Some (name (self J)))
           (mkState (ensureRecord (self J) (foundModels st)) (console st))
     | None =>
         Return None
           (mkState (foundModels st)
              (console st ++
               [ThroughModelNotFound n BelongsToMany (name (source a))]))
     end) /\
  (associationType a = BelongsToMany ->
   through a = Some ThroughOptionsInvalid \/
   through a = Some (ThroughOptionsString EmptyString) ->
   getThroughModelOperations this a st =
   Return None (mkState (foundModels st) (console st ++ [InvalidThroughModel]))).
Proof.
  unfold getThroughModelOperations. repeat split.
  - intros Hkind. by rewrite bool_decide_eq_false_2.
  - intros Hkind [->| ->]; by rewrite bool_decide_eq_true_2.
  - intros t n Hkind Ht Hnames Hn.
    rewrite bool_decide_eq_true_2, Ht, Hkind by done.
    pose proof (truthy_nonempty n Hn) as Htruthy.
    assert (throughIsFalsy (Some t) = false) as ->.
    { destruct Hnames as [-> |[(m & -> & _)|[-> |(m & -> & _)]]];
        simpl; by rewrite ?Htruthy. }
    simpl.
    assert (getSequelizeModelNameFromThroughModel t st = Return (Some n) st)
      as Hname.
    { destruct Hnames as [-> |[(m & -> & <-)|[-> |(m & -> & <-)]]];
        simpl; by rewrite ?Htruthy. }
    unfold bind at 1. rewrite Hname, Htruthy. simpl.
    destruct (availableModels this !! n) as [J|]; [|done].
    unfold bind. by rewrite getOrCreateModelOperations_spec.
  - intros Hkind [->| ->]; by rewrite bool_decide_eq_true_2.
Qed.

(** X10 on the sample registry and on the registry without the join
    model. *)
Lemma X10_join_model_resolution_witness :
  getThroughModelOperations (sampleParser []) rolesOfUser initialState
  = Return (Some "UserRole")
      (mkState [("UserRole", mkOps "user_roles" true false false false)] []) /\
  getThroughModelOperations
    (mkParser modelsWithoutJoin noOptions sampleChecker []) rolesOfUser
    initialState
  = Return None
      (mkState [] [ThroughModelNotFound "UserRole" BelongsToMany "User"]).
Proof.
  split.
  - destruct (X10_join_model_resolution (sampleParser []) rolesOfUser
                initialState) as (_ & _ & Hnamed & _).
    rewrite (Hnamed (ThroughModel userRoleRef) "UserRole");
      [reflexivity|reflexivity|reflexivity| |done].
    right. left. by exists userRoleRef.
  - destruct (X10_join_model_resolution
                (mkParser modelsWithoutJoin noOptions sampleChecker [])
                rolesOfUser initialState) as (_ & _ & Hnamed & _).
    rewrite (Hnamed (ThroughModel userRoleRef) "UserRole");
      [reflexivity|reflexivity|reflexivity| |done].
    right. left. by exists userRoleRef.
Defined.

(** ** More on the completion pass *)

(** X11.  The completion pass, whether it returns or throws, leaves the
    record held under [k] exactly as it is (present or absent) unless [k]
    is the name of the join entity some many-to-many association of the
    registry resolves to. *)
Theorem X11_completion_changes_only_joins this st k :
  (forall J, isJoinEntity this J -> k <> name (self J)) ->
  Dict.get k (foundModels (finalState (addHiddenManyToManyModels this st)))
  = Dict.get k (foundModels st).
Proof.
  intros Hk.
  destruct (decide
    (Dict.get k (foundModels (finalState (addHiddenManyToManyModels this st)))
     = Dict.get k (foundModels st))) as [|Hne]; [done|].
  destruct (pass_completes this st) as [_ Hchanges].
  destruct (Hchanges k Hne) as (J & HJ & ->). by destruct (Hk J HJ).
Qed.

(** X11 on the sample project: the pass adds [UserRole] and leaves
    [Role] alone. *)
Lemma X11_completion_changes_only_joins_witness :
  let st := mkState [ selectOnly userRef;
                      ("Role", mkOps "roles" true true false false) ] [] in
  Dict.get "Role"
    (foundModels (finalState (addHiddenManyToManyModels (sampleParser []) st)))
  = Some (mkOps "roles" true true false false).
Proof.
  intros st.
  rewrite (X11_completion_changes_only_joins (sampleParser []) st "Role").
  - reflexivity.
  - intros J HJ. by apply sampleModels_join in HJ as ->.
Defined.

(** ** Join entities without a record *)

(** X23.  Step: for a many-to-many association whose join entity resolves
    to the registered [J], if [J] has no record yet and the target has
    the record [t], processing the association returns and appends a
    record for [J] with select set and with the insert, update and delete
    flags of [t] (the join's prior flags being absent, hence false).
    Pass: for every entity in the store when the pass starts and every
    such association of it, a pass that runs to its end leaves a record
    for [J] with select set and with every write flag the target had; in
    particular insert, if the target had insert. *)
Theorem X23_completion_creates_join_record (this : SequelizeParser) :
  (forall a J t st,
     resolveThrough this a = Some J ->
     Dict.get (name (self J)) (foundModels st) = None ->
     Dict.get (name (target a)) (foundModels st) = Some t ->
     exists st',
       addHiddenManyToManyModel this a st = Return tt st' /\
       foundModels st' =
       Dict.add (name (self J))
         (mkOps (getSequelizeModelTableName (self J)) true
            (isInsert t) (isUpdate t) (isDelete t))
         (foundModels st)) /\
  (forall st st' modelName model a J t,
     addHiddenManyToManyModels this st = Return tt st' ->
     modelName ∈ Dict.keys (foundModels st) ->
     availableModels this !! modelName = Some model ->
     a ∈ Dict.values (associations model) ->
     resolveThrough this a = Some J ->
     Dict.get (name (self J)) (foundModels st) = None ->
     Dict.get (name (target a)) (foundModels st) = Some t ->
     exists j,
       Dict.get (name (self J)) (foundModels st') = Some j /\
       isSelect j = true /\
       (isInsert t -> isInsert j) /\
       (isUpdate t -> isUpdate j) /\
       (isDelete t -> isDelete j)).
Proof.
  split.
  - intros a J t st Hthrough Hjoin Htarget.
    destruct (step_resolved this a t J st Htarget Hthrough)
      as (st' & Hrun & Hfound).
    exists st'. split; [exact Hrun|]. rewrite Hfound.
    unfold ensureRecord. rewrite Hjoin.
    by rewrite DictFacts.alter_add_absent, mergeFlags_new.
  - intros st st' modelName model a J t Hrun Hk Hm Ha Hthrough Hjoin Htarget.
    destruct (pass_reaches_step this evolves st st' modelName model a)
      as (s1 & s2 & H1 & Hstep & H2); try done.
    { intros. apply evolves_addHiddenManyToManyModel. }
    destruct (grows_kept _ _ H1 _ _ Htarget) as (t1 & Ht1 & Hle1).
    destruct (step_resolved this a t1 J s1 Ht1 Hthrough)
      as (s2' & Hrun' & Hfound).
    assert (s2' = s2) as -> by congruence.
    destruct (get_ensureRecord_self (self J) (foundModels s1))
      as (j0 & Hj0 & _).
    assert (Dict.get (name (self J)) (foundModels s2)
            = Some (mergeFlags t1 j0)) as Hj2.
    { by rewrite Hfound, DictFacts.get_alter, decide_True, Hj0. }
    destruct (grows_kept _ _ H2 _ _ Hj2) as (j & Hj & Hle2).
    exists j. split; [exact Hj|]. split.
    + assert (evolves st st') as Hall
        by (etrans; [exact H1|]; etrans; [|exact H2];
            pose proof (evolves_addHiddenManyToManyModel this a s1) as Hs;
            by rewrite Hstep in Hs).
      by apply (grows_new _ _ Hall (name (self J))).
    + destruct Hle1 as (_ & _ & Hi1 & Hu1 & Hd1).
      destruct Hle2 as (_ & _ & Hi2 & Hu2 & Hd2). simpl in *.
      repeat split; intros Hflag.
      * apply Hi2. rewrite (Is_true_true_1 _ (Hi1 Hflag)).
        by rewrite orb_true_r.
      * apply Hu2. rewrite (Is_true_true_1 _ (Hu1 Hflag)).
        by rewrite orb_true_r.
      * apply Hd2. rewrite (Is_true_true_1 _ (Hd1 Hflag)).
        by rewrite orb_true_r.
Qed.

(** X23 on the sample project: [User] is in the store, [Role] has insert
    from [Role.create()], [UserRole] is named nowhere. *)
Lemma X23_completion_creates_join_record_witness :
  let st := mkState [ selectOnly userRef;
                      ("Role", mkOps "roles" true true false false) ] [] in
  exists st' j,
    addHiddenManyToManyModels (sampleParser []) st = Return tt st' /\
    Dict.get "UserRole" (foundModels st') = Some j /\
    isSelect j = true /\ isInsert j.
Proof.
  intros st.
  destruct (X23_completion_creates_join_record (sampleParser [])) as [_ Hpass].
  exists (finalState (addHiddenManyToManyModels (sampleParser []) st)).
  destruct (Hpass st
    (finalState (addHiddenManyToManyModels (sampleParser []) st))
    "User" User rolesOfUser UserRole
    (mkOps "roles" true true false false)) as (j & Hj & Hsel & Hins & _).
  - vm_compute. reflexivity.
  - vm_compute. apply list_elem_of_here.
  - reflexivity.
  - vm_compute. apply list_elem_of_here.
  - reflexivity.
  - reflexivity.
  - reflexivity.
  - exists j. split; [vm_compute; reflexivity|]. split; [exact Hj|].
    split; [exact Hsel|]. by apply Hins.
Defined.

(** ** Registries on which the completion pass never throws *)

Section KeysRegistered.
Context (this : SequelizeParser).

Lemma step_returns a :
  (associationType a = BelongsToMany -> is_Some (resolveThrough this a)) ->
  neverThrows (addHiddenManyToManyModel this a).
Proof.
  intros Hresolves st.
  destruct (decide (associationType a = BelongsToMany)) as [Hkind|Hkind];
    [|by rewrite step_skips by by left].
  destruct (Dict.get (name (target a)) (foundModels st)) as [t|] eqn:Ht;
    [|by rewrite step_skips by by right].
  destruct (Hresolves Hkind) as [J HJ].
  destruct (step_resolved this a t J st Ht HJ) as (st' & -> & _). done.
Qed.

Lemma pass_returns st :
  throughsResolve this ->
  keysRegistered this st ->
  returns (addHiddenManyToManyModels this st) = true.
Proof.
  intros Hresolve Hst.
  unfold addHiddenManyToManyModels, bind at 1, getFoundModels.
  apply neverThrows_forEach, Forall_forall. intros k Hk.
  destruct (Hst k Hk) as [m Hm]. rewrite Hm.
  apply neverThrows_forEach, Forall_forall. intros a Ha.
  apply step_returns. intros Hkind. by eapply Hresolve.
Qed.
End KeysRegistered.

Lemma sampleModels_throughsResolve files : throughsResolve (sampleParser files).
Proof.
  intros k m a Hm Ha Hkind. simpl in Hm.
  apply sampleModels_lookup in Hm as [[-> ->]|[[-> ->]|[-> ->]]];
    simpl in Ha; set_unfold in Ha.
  - destruct Ha as [->|[]]. by eexists.
  - destruct Ha as [->|[]]. by eexists.
  - done.
Qed.

(** X12.  On a registry in which every many-to-many association
    resolves to a registered join model, the completion pass returns
    from every store whose keys are all registered: it never throws. *)
Theorem X12_completion_pass_returns_on_closed_registry this st :
  throughsResolve this ->
  keysRegistered this st ->
  exists st', addHiddenManyToManyModels this st = Return tt st'.
Proof.
  intros Hresolve Hst.
  pose proof (pass_returns this st Hresolve Hst) as Hpass.
  apply returns_Return in Hpass as ([] & st' & Hpass). by exists st'.
Qed.

(** X12 on the sample project, from the store the traversal of
    [import { User } from './models'; Role.create();] builds. *)
Lemma X12_completion_pass_returns_on_closed_registry_witness :
  let st := mkState [ selectOnly userRef;
                      ("Role", mkOps "roles" true true false false) ] [] in
  exists st', addHiddenManyToManyModels (sampleParser []) st = Return tt st'.
Proof.
  intros st.
  apply X12_completion_pass_returns_on_closed_registry.
  - apply sampleModels_throughsResolve.
  - intros k Hk. vm_compute in Hk.
    apply elem_of_cons in Hk as [-> | Hk]; [by eexists|].
    apply elem_of_cons in Hk as [-> | Hk]; [by eexists|].
    by apply elem_of_nil in Hk.
Defined.

(** ** What the run can throw *)

Lemma throwsOnly_neverThrows (P : Exception -> Prop) {A} (m : M A) :
  neverThrows m -> throwsOnly P m.
Proof. intros Hm st e st' Hrun. specialize (Hm st). by rewrite Hrun in Hm. Qed.

Lemma throwsOnly_throw (P : Exception -> Prop) {A} e :
  P e -> throwsOnly P (@throw A e).
Proof. by intros He st e' st' [= <- <-]. Qed.

Lemma throwsOnly_bind (P : Exception -> Prop) {A B}
    (m : M A) (k : A -> M B) :
  throwsOnly P m -> (forall a, throwsOnly P (k a)) -> throwsOnly P (bind m k).
Proof.
  intros Hm Hk st e st'. unfold bind.
  destruct (m st) as [a st1|e1 st1] eqn:Hrun.
  - apply Hk.
  - intros [= <- <-]. by eapply Hm.
Qed.

Lemma throwsOnly_forEach (P : Exception -> Prop) {A}
    (f : A -> M unit) (l : list A) :
  Forall (fun x => throwsOnly P (f x)) l -> throwsOnly P (forEach f l).
Proof.
  induction 1 as [|x l Hx Hl IH]; simpl.
  - apply throwsOnly_neverThrows, neverThrows_ret.
  - apply throwsOnly_bind; [done|]. intros _. exact IH.
Qed.

Lemma throwsOnly_writeFieldOrThrow set ref :
  throwsOnly isTypeError (writeFieldOrThrow set ref).
Proof.
  destruct ref; simpl.
  - apply throwsOnly_neverThrows, neverThrows_writeField.
  - by apply throwsOnly_throw.
Qed.

Lemma throwsOnly_addHiddenManyToManyModel this a :
  throwsOnly isTypeError (addHiddenManyToManyModel this a).
Proof.
  unfold addHiddenManyToManyModel.
  repeat first
    [ apply throwsOnly_writeFieldOrThrow
    | apply throwsOnly_neverThrows;
        first [ apply neverThrows_ret | apply neverThrows_getFoundModels
              | apply neverThrows_readFlag
              | apply neverThrows_getThroughModelOperations ]
    | apply throwsOnly_bind; [|intros ?]
    | case_match ].
Qed.

Lemma throwsOnly_addHiddenManyToManyModels this :
  throwsOnly isTypeError (addHiddenManyToManyModels this).
Proof.
  unfold addHiddenManyToManyModels.
  apply throwsOnly_bind;
    [apply throwsOnly_neverThrows, neverThrows_getFoundModels|].
  intros found. apply throwsOnly_forEach, Forall_forall. intros k _.
  destruct (availableModels this !! k); [|by apply throwsOnly_throw].
  apply throwsOnly_forEach, Forall_forall. intros a _.
  apply throwsOnly_addHiddenManyToManyModel.
Qed.

(** X13.  What [getModelsFromSourceFiles] can do.  When the
    configuration file is not found it throws the error naming the file
    ([tsconfig.json] unless the options name another), before anything
    is visited.  When it is found, the call returns the store
    [visitAllSourceFiles] has built, or it ends with the exception
    [visitAllSourceFiles] throws, which is a [TypeError]: the
    configuration error is not thrown once the file is found. *)
Theorem X13_run_outcomes host basePath models opts :
  let tsConfig := default "tsconfig.json" (tsConfigName opts) in
  match findConfigFile host basePath tsConfig with
  | None =>
      getModelsFromSourceFiles host basePath models opts
      = Throw (Error ("Could not find a valid '" +:+ tsConfig +:+ "'."))
          initialState
  | Some configPath =>
      let '(files, checker) := createProgram host configPath basePath in
      let this := mkParser models opts checker files in
      (exists st,
         getModelsFromSourceFiles host basePath models opts
         = Return (foundModels st) st /\
         visitAllSourceFiles this initialState = Return tt st) \/
      (exists message st,
         getModelsFromSourceFiles host basePath models opts
         = Throw (TypeError message) st /\
         visitAllSourceFiles this initialState = Throw (TypeError message) st)
  end.
Proof.
  simpl. unfold getModelsFromSourceFiles, loadProjectConfig.
  destruct (findConfigFile host basePath _) as [configPath|]; [|done].
  destruct (createProgram host configPath basePath) as [files checker].
  set (this := mkParser models opts checker files).
  assert (throwsOnly isTypeError (visitAllSourceFiles this)) as Honly.
  { apply throwsOnly_bind;
      [apply throwsOnly_neverThrows, neverThrows_traversal|].
    intros _. apply throwsOnly_addHiddenManyToManyModels. }
  unfold bind.
  destruct (visitAllSourceFiles this initialState) as [[] st|e st] eqn:Hrun.
  - left. by exists st.
  - right. specialize (Honly initialState e st Hrun).
    destruct e as [message|message]; [done|]. by exists message, st.
Qed.

(** ** Declaration files *)

Lemma forEach_ext {A} (f g : A -> M unit) (l : list A) :
  Forall (fun x => forall st, f x st = g x st) l ->
  forall st, forEach f l st = forEach g l st.
Proof.
  induction 1 as [|x l Hx Hl IH]; intros st; simpl; [done|].
  unfold bind. rewrite Hx. by destruct (g x st).
Qed.

Lemma nodeVisitor_withSourceFiles this files node st :
  nodeVisitor (withSourceFiles this files) node st = nodeVisitor this node st.
Proof.
  revert st.
  induction node as [kind text|e args IHe IHargs|spec bindings|kind cs IHcs]
    using Node_nested_ind; intros st; simpl.
  - done.
  - unfold bind.
    change (processCallExpression (withSourceFiles this files) e args st)
      with (processCallExpression this e args st).
    destruct (processCallExpression this e args st) as [[] st1|]; [|done].
    rewrite IHe. destruct (nodeVisitor this e st1) as [[] st2|]; [|done].
    by apply forEach_ext.
  - done.
  - by apply forEach_ext.
Qed.

(** X14.  Declaration files contribute nothing: the run over a program
    is the run over the same program with its declaration files taken
    out. *)
Theorem X14_declaration_files_skipped this st :
  visitAllSourceFiles this st =
  visitAllSourceFiles
    (withSourceFiles this
       (List.filter (fun f => negb (isDeclarationFile f))
          (getSourceFiles this))) st.
Proof.
  set (this' := withSourceFiles this _).
  unfold visitAllSourceFiles, bind.
  change (getSourceFiles this')
    with (List.filter (fun f => negb (isDeclarationFile f))
            (getSourceFiles this)).
  change (addHiddenManyToManyModels this')
    with (addHiddenManyToManyModels this).
  assert (forall files s,
    forEach
      (fun sourceFile =>
         if isDeclarationFile sourceFile then ret tt
         else forEach (nodeVisitor this) (statements sourceFile)) files s
    = forEach
        (fun sourceFile =>
           if isDeclarationFile sourceFile then ret tt
           else forEach (nodeVisitor this') (statements sourceFile))
        (List.filter (fun f => negb (isDeclarationFile f)) files) s)
    as Htraverse.
  { induction files as [|f files IH]; intros s; simpl; [done|].
    destruct (isDeclarationFile f) eqn:Hdecl; simpl.
    - unfold bind. simpl. apply IH.
    - rewrite Hdecl. unfold bind.
      rewrite (forEach_ext (nodeVisitor this) (nodeVisitor this'));
        [|apply Forall_forall; intros n _ s';
          symmetry; apply nodeVisitor_withSourceFiles].
      destruct (forEach _ (statements f) s) as [[] s1|]; [|done].
      apply IH. }
  by rewrite Htraverse.
Qed.

(** ** The earlier revision of the direct write handler *)

(** X15.  In the earlier revision of the parser, a classified direct
    write on an entity that has a record does exactly what the later
    [processModelWriteMethod] does; on an entity that has none it creates
    the select-only record and then throws a [TypeError], because the
    reference it writes through was read before the record was
    created. *)
Theorem X15_earlier_handler_throws_on_first_write model method ops st :
  classifier_spec method = Some ops ->
  match Dict.get (name (self model)) (foundModels st) with
  | Some _ =>
      updateModelFlagBasedOnMethod model method st
      = processModelWriteMethod model method st
  | None =>
      updateModelFlagBasedOnMethod model method st
      = Throw (TypeError "Cannot set properties of undefined")
          (mkState
             (Dict.add (name (self model)) (newModelOperations (self model))
                (foundModels st))
             (console st))
  end.
Proof.
  intros Hspec.
  pose proof (classified_not_mixin _ _ Hspec) as Hmix.
  pose proof Hspec as Hget. rewrite <- record_matches_classifier in Hget.
  unfold updateModelFlagBasedOnMethod, processModelWriteMethod.
  rewrite Hmix, Hget. unfold bind at 1 3, getFoundModels.
  rewrite getOrCreateModelOperations_spec. unfold ensureRecord.
  destruct (Dict.get (name (self model)) (foundModels st)) eqn:Hrecord.
  - unfold bind at 1. simpl. by destruct st.
  - unfold bind at 1. simpl. rewrite Hrecord. simpl.
    by destruct (classifier_spec_cases _ _ Hspec) as [-> | [-> | [-> | ->]]].
Qed.

(** X15 at [Role.create()] on the empty store. *)
Lemma X15_earlier_handler_throws_on_first_write_witness :
  updateModelFlagBasedOnMethod Role "create" initialState
  = Throw (TypeError "Cannot set properties of undefined")
      (mkState [("Role", mkOps "roles" true false false false)] []).
Proof.
  exact (X15_earlier_handler_throws_on_first_write Role "create" [INSERT]
           initialState eq_refl).
Defined.

(** ** The SQL generator *)

Lemma permissionsOf_cases r :
  permissionsOf r =
  (if isSelect r then ["SELECT"] else []) ++
  (if isInsert r then ["INSERT"] else []) ++
  (if isUpdate r then ["UPDATE"] else []) ++
  (if isDelete r then ["DELETE"] else []).
Proof. by destruct r as [t [] [] [] []]. Qed.

Lemma permissionsOf_length r : length (permissionsOf r) = flagCount r.
Proof. by destruct r as [t [] [] [] []]. Qed.

Lemma permissionsOf_elem p r :
  p ∈ permissionsOf r <->
  (isSelect r /\ p = "SELECT") \/ (isInsert r /\ p = "INSERT") \/
  (isUpdate r /\ p = "UPDATE") \/ (isDelete r /\ p = "DELETE").
Proof.
  rewrite permissionsOf_cases.
  destruct r as [t [] [] [] []]; simpl; set_unfold; intuition congruence.
Qed.

Lemma tableGrants_elem cmd found databaseUsername :
  cmd ∈ concat
          (map (fun tp =>
                  map (fun permission =>
                         grantCommand permission (fst tp) databaseUsername)
                      (snd tp))
               (tablePermissions found)) <->
  exists r p, r ∈ Dict.values found /\ p ∈ permissionsOf r /\
              cmd = grantCommand p (table r) databaseUsername.
Proof.
  unfold tablePermissions, Dict.values.
  induction found as [|[k r] found IH]; simpl.
  - split; [by intros ?%elem_of_nil|]. by intros (r & p & ?%elem_of_nil & _).
  - rewrite elem_of_app, IH, list_elem_of_fmap. split.
    + intros [(p & -> & Hp)|(r' & p & Hr & Hp & ->)].
      * exists r, p. by split; [apply list_elem_of_here|].
      * exists r', p. by split; [apply list_elem_of_further|].
    + intros (r' & p & Hr & Hp & ->).
      apply elem_of_cons in Hr as [->|Hr].
      * left. by exists p.
      * right. by exists r', p.
Qed.

Lemma tableGrants_length found databaseUsername :
  length
    (concat
       (map (fun tp =>
               map (fun permission =>
                      grantCommand permission (fst tp) databaseUsername)
                   (snd tp))
            (tablePermissions found)))
  = sum_list_with flagCount (Dict.values found).
Proof.
  unfold tablePermissions, Dict.values.
  induction found as [|[k r] found IH]; simpl; [done|].
  by rewrite length_app, length_map, permissionsOf_length, IH.
Qed.

(** X16.  The commands the generator emits are exactly these: the
    REVOKE line when [clearAllGrants] is set; for every usage record and
    every flag set on it, the GRANT of that permission on the record's
    table to the user; the FLUSH line unless [flushPrivileges] is
    explicitly false.  No permission is granted on a table for a flag
    that no record of that table has. *)
Theorem X16_generator_grants_exactly_the_flags
    found databaseUsername options cmd :
  cmd ∈ grantCommands found databaseUsername options <->
  (clearAllGrants options = Some true /\
   cmd = revokeCommand databaseUsername) \/
  (exists r, r ∈ Dict.values found /\
     ((isSelect r /\
       cmd = grantCommand "SELECT" (table r) databaseUsername) \/
      (isInsert r /\
       cmd = grantCommand "INSERT" (table r) databaseUsername) \/
      (isUpdate r /\
       cmd = grantCommand "UPDATE" (table r) databaseUsername) \/
      (isDelete r /\
       cmd = grantCommand "DELETE" (table r) databaseUsername))) \/
  (flushPrivileges options <> Some false /\ cmd = flushCommand).
Proof.
  unfold grantCommands. rewrite !elem_of_app, tableGrants_elem.
  assert (cmd ∈ (if truthyFlag (clearAllGrants (withSQLDefaults options))
                 then [revokeCommand databaseUsername] else [])
          <-> clearAllGrants options = Some true /\
              cmd = revokeCommand databaseUsername) as ->.
  { destruct options as [[[]|] f h]; simpl; set_unfold; intuition congruence. }
  assert (cmd ∈ (if truthyFlag (flushPrivileges (withSQLDefaults options))
                 then [flushCommand] else [])
          <-> flushPrivileges options <> Some false /\ cmd = flushCommand)
    as ->.
  { destruct options as [c [[]|] h]; simpl; set_unfold; intuition congruence. }
  assert ((exists r p, r ∈ Dict.values found /\ p ∈ permissionsOf r /\
                       cmd = grantCommand p (table r) databaseUsername)
          <-> exists r, r ∈ Dict.values found /\
     ((isSelect r /\
       cmd = grantCommand "SELECT" (table r) databaseUsername) \/
      (isInsert r /\
       cmd = grantCommand "INSERT" (table r) databaseUsername) \/
      (isUpdate r /\
       cmd = grantCommand "UPDATE" (table r) databaseUsername) \/
      (isDelete r /\
       cmd = grantCommand "DELETE" (table r) databaseUsername))) as ->;
    [|done].
  split.
  - intros (r & p & Hr & Hp & ->). exists r. split; [done|].
    apply permissionsOf_elem in Hp.
    destruct Hp as [[? ->]|[[? ->]|[[? ->]|[? ->]]]]; tauto.
  - intros (r & Hr & Hcases).
    destruct Hcases as [[? ->]|[[? ->]|[[? ->]|[? ->]]]];
      eexists r, _; (split; [done|]); (split; [|reflexivity]);
      apply permissionsOf_elem; tauto.
Qed.

(** X17.  The generator emits one command per set flag, plus the REVOKE
    line when [clearAllGrants] is set and the FLUSH line unless
    [flushPrivileges] is explicitly false; on a store in which every
    record has its select flag set, as the analysis leaves it, that is at
    least one GRANT per record. *)
Theorem X17_generator_command_count found databaseUsername options :
  length (grantCommands found databaseUsername options)
  = (if bool_decide (clearAllGrants options = Some true) then 1 else 0)
    + sum_list_with flagCount (Dict.values found)
    + (if bool_decide (flushPrivileges options = Some false) then 0 else 1)
  /\ (allSelect found -> NoDup (Dict.keys found) ->
      length found <= sum_list_with flagCount (Dict.values found)).
Proof.
  split.
  - unfold grantCommands. rewrite !length_app, tableGrants_length.
    destruct options as [[[]|] [[]|] h]; simpl; lia.
  - unfold Dict.values, Dict.keys.
    induction found as [|[k r] found IH]; intros Hsel Hdup; simpl; [lia|].
    apply NoDup_cons in Hdup as [Hk Hdup].
    assert (isSelect r = true) as Hr.
    { apply (Hsel k). simpl. by rewrite decide_True. }
    assert (allSelect found) as Hrest.
    { intros k' r' Hget. apply (Hsel k'). simpl.
      case_decide as Heq; [|done]. subst k'.
      apply DictFacts.get_Some_keys in Hget. done. }
    specialize (IH Hrest Hdup). unfold flagCount at 1. rewrite Hr.
    destruct (isInsert r), (isUpdate r), (isDelete r); simpl; lia.
Qed.

(** X17 at the store of the sample run. *)
Lemma X17_generator_command_count_witness :
  let found := [ selectOnly userRef;
                 ("Role", mkOps "roles" true true false false) ] in
  allSelect found /\ NoDup (Dict.keys found) /\
  length (grantCommands found "api" (mkSQLOptions None None None)) = 4 /\
  length found <= sum_list_with flagCount (Dict.values found).
Proof.
  intros found.
  assert (allSelect found) as Hsel
    by (apply allSelect_cons; [reflexivity|];
        apply allSelect_cons; [reflexivity|apply allSelect_nil]).
  assert (NoDup (Dict.keys found)) as Hdup.
  { simpl. apply NoDup_cons. split; [set_unfold; intuition congruence|].
    apply NoDup_cons. split; [set_unfold; tauto|apply NoDup_nil_2]. }
  destruct (X17_generator_command_count found "api"
              (mkSQLOptions None None None)) as [Hcount Hleast].
  split; [exact Hsel|]. split; [exact Hdup|].
  split; [rewrite Hcount; reflexivity|]. by apply Hleast.
Defined.

(** X18.  The generator's options.  The host option has no influence on
    the SQL text, which always addresses the user at the host [%]; an
    absent [flushPrivileges] behaves as [true] and an absent
    [clearAllGrants] as [false]; the options object is left with
    [flushPrivileges] defined and with [databaseUserHost] set, to [%]
    when it was absent or empty. *)
Theorem X18_generator_options found databaseUsername clear flush host :
  (forall host',
     fst (generateSQLCommandsFromFoundModels found databaseUsername
            (mkSQLOptions clear flush host))
     = fst (generateSQLCommandsFromFoundModels found databaseUsername
              (mkSQLOptions clear flush host'))) /\
  fst (generateSQLCommandsFromFoundModels found databaseUsername
         (mkSQLOptions clear None host))
  = fst (generateSQLCommandsFromFoundModels found databaseUsername
           (mkSQLOptions clear (Some true) host)) /\
  fst (generateSQLCommandsFromFoundModels found databaseUsername
         (mkSQLOptions None flush host))
  = fst (generateSQLCommandsFromFoundModels found databaseUsername
           (mkSQLOptions (Some false) flush host)) /\
  let left :=
    snd (generateSQLCommandsFromFoundModels found databaseUsername
           (mkSQLOptions clear flush host)) in
  is_Some (flushPrivileges left) /\
  (exists h, databaseUserHost left = Some h /\ h <> EmptyString) /\
  (host = None \/ host = Some EmptyString ->
   databaseUserHost left = Some "%").
Proof.
  repeat split.
  - destruct flush as [b|]; by eexists.
  - unfold withSQLDefaults. simpl.
    destruct host as [h|]; simpl; [|by exists "%"].
    unfold truthy. case_bool_decide; [by exists h|by exists "%"].
  - by intros [-> | ->].
Qed.

(** ** Imports and direct writes commute *)

Lemma get_ensureRecords models found k :
  Dict.get k (ensureRecords models found) =
  match Dict.get k found with
  | Some r => Some r
  | None => (fun m => newModelOperations (self m)) <$> firstNamed k models
  end.
Proof.
  unfold ensureRecords, firstNamed. revert found.
  induction models as [|m models IH]; intros found; simpl.
  - by destruct (Dict.get k found).
  - rewrite IH, get_ensureRecord.
    destruct (Dict.get k found) as [r|]; [done|].
    destruct (decide (k = name (self m))) as [->|Hne].
    + by rewrite bool_decide_eq_true_2.
    + by rewrite bool_decide_eq_false_2.
Qed.

Lemma firstNamed_elem k models m :
  firstNamed k models = Some m -> m ∈ models /\ name (self m) = k.
Proof.
  unfold firstNamed. induction models as [|m0 models IH]; simpl; [done|].
  case_bool_decide as Hname; simpl.
  - intros [= <-]. split; [apply list_elem_of_here|done].
  - intros Hrest. destruct (IH Hrest) as [Hin Heq].
    split; [by apply list_elem_of_further|done].
Qed.

Lemma importedModels_registered this bindings m :
  m ∈ importedModels this bindings ->
  exists k, availableModels this !! k = Some m.
Proof.
  destruct bindings as [|alias|elements]; simpl;
    try by intros ?%elem_of_nil.
  intros Hin. apply list_elem_of_omap in Hin as (s & _ & Hs). by eexists.
Qed.

(** X19.  An import declaration and a classified direct write on a
    registered entity commute: on a registry keyed by the names of its
    entities, every entity has the same usage record whether the import
    is processed before the write or after it. *)
Theorem X19_import_and_write_commute
    this moduleSpecifier bindings key model method ops st k :
  registryKeyedByName this ->
  availableModels this !! key = Some model ->
  classifier_spec method = Some ops ->
  Dict.get k
    (foundModels
       (finalState
          ((let* _ := processImportDeclarationNode this moduleSpecifier
                        bindings in
            processModelWriteMethod model method) st)))
  = Dict.get k
      (foundModels
         (finalState
            ((let* _ := processModelWriteMethod model method in
              processImportDeclarationNode this moduleSpecifier bindings)
               st))).
Proof.
  intros Hkeyed Hmodel Hspec. unfold bind.
  rewrite processImportDeclarationNode_spec.
  destruct (processModelWriteMethod_effect model method ops
              (mkState
                 (if fromOtherModule this moduleSpecifier then foundModels st
                  else ensureRecords (importedModels this bindings)
                         (foundModels st))
                 (console st)) Hspec) as (s1 & -> & _ & Hfirst).
  destruct (processModelWriteMethod_effect model method ops st Hspec)
    as (s2 & -> & _ & Hsecond).
  rewrite processImportDeclarationNode_spec. simpl in *.
  rewrite Hfirst.
  destruct (fromOtherModule this moduleSpecifier); [by rewrite Hsecond|].
  rewrite !get_ensureRecords, Hsecond.
  destruct (decide (k = name (self model))) as [->|Hne]; [|done].
  destruct (Dict.get (name (self model)) (foundModels st)) as [r|];
    [done|]. simpl.
  destruct (firstNamed _ _) as [m|] eqn:Hnamed; [|done]. simpl.
  apply firstNamed_elem in Hnamed as [Hin Hname].
  apply importedModels_registered in Hin as [key' Hkey'].
  pose proof (Hkeyed _ _ Hkey') as H1. pose proof (Hkeyed _ _ Hmodel) as H2.
  assert (key' = key) as -> by congruence.
  assert (m = model) as -> by congruence. done.
Qed.

(** X19 on the sample project: [import { Role }] and [Role.create()]. *)
Lemma X19_import_and_write_commute_witness :
  let import := processImportDeclarationNode (sampleParser [])
                  (Token StringLiteral "'./models'")
                  (NamedImports [mkImportSpecifier None "Role"]) in
  let write := processModelWriteMethod Role "create" in
  Dict.get "Role"
    (foundModels (finalState ((let* _ := import in write) initialState)))
  = Dict.get "Role"
      (foundModels (finalState ((let* _ := write in import) initialState))).
Proof.
  intros import write.
  apply (X19_import_and_write_commute (sampleParser [])
           (Token StringLiteral "'./models'")
           (NamedImports [mkImportSpecifier None "Role"]) "Role" Role
           "create" [INSERT] initialState "Role").
  - apply sampleModels_keyed.
  - reflexivity.
  - reflexivity.
Defined.

(** ** Join entities that already have a record *)

(** X20.  The completion step does not stop at join entities without a
    record: when the join entity of a many-to-many association already
    has the record [j] and the target has the record [t], the step
    returns and or-s the insert, update and delete flags of [t] into [j],
    in place; it never clears a flag of [j] and changes no other
    record. *)
Theorem X20_completion_merges_into_existing_join this a J t j st :
  resolveThrough this a = Some J ->
  Dict.get (name (target a)) (foundModels st) = Some t ->
  Dict.get (name (self J)) (foundModels st) = Some j ->
  exists st',
    addHiddenManyToManyModel this a st = Return tt st' /\
    foundModels st' =
      Dict.alter (mergeFlags t) (name (self J)) (foundModels st) /\
    Dict.get (name (self J)) (foundModels st')
    = Some (mkOps (table j) (isSelect j) (isInsert j || isInsert t)
              (isUpdate j || isUpdate t) (isDelete j || isDelete t)) /\
    forall k, k <> name (self J) ->
      Dict.get k (foundModels st') = Dict.get k (foundModels st).
Proof.
  intros Hthrough Htarget Hjoin.
  destruct (step_resolved this a t J st Htarget Hthrough)
    as (st' & Hrun & Hfound).
  rewrite (ensureRecord_present _ _ j Hjoin) in Hfound.
  exists st'. split; [exact Hrun|]. split; [exact Hfound|]. split.
  - by rewrite Hfound, DictFacts.get_alter, decide_True, Hjoin.
  - intros k Hk. by rewrite Hfound, DictFacts.get_alter, decide_False.
Qed.

(** X20 on the sample project: [UserRole] has delete, [Role] has
    insert. *)
Lemma X20_completion_merges_into_existing_join_witness :
  let st := mkState [ ("Role", mkOps "roles" true true false false);
                      ("UserRole", mkOps "user_roles" true false false true) ]
              [] in
  exists st',
    addHiddenManyToManyModel (sampleParser []) rolesOfUser st
      = Return tt st' /\
    Dict.get "UserRole" (foundModels st')
    = Some (mkOps "user_roles" true true false true).
Proof.
  intros st.
  destruct (X20_completion_merges_into_existing_join (sampleParser [])
              rolesOfUser UserRole (mkOps "roles" true true false false)
              (mkOps "user_roles" true false false true) st)
    as (st' & Hrun & _ & Hget & _); try reflexivity.
  exists st'. split; [exact Hrun|]. exact Hget.
Defined.

(** ** The resolver only reports *)

Lemma reportsOnly_ret {A} (a : A) : reportsOnly (ret a).
Proof. exists a, []. intros st. rewrite app_nil_r. by destruct st. Qed.

Lemma reportsOnly_log d : reportsOnly (log d).
Proof. by exists tt, [d]. Qed.

Lemma reportsOnly_bind {A B} (m : M A) (k : A -> M B) :
  reportsOnly m -> (forall a, reportsOnly (k a)) -> reportsOnly (bind m k).
Proof.
  intros (a & d1 & Hm) Hk. destruct (Hk a) as (b & d2 & Hka).
  exists b, (d1 ++ d2). intros st. unfold bind.
  rewrite Hm, Hka. simpl. by rewrite app_assoc.
Qed.

Lemma reportsOnly_firstFound {A B} (f : A -> M (option B)) (l : list A) :
  Forall (fun x => reportsOnly (f x)) l -> reportsOnly (firstFound f l).
Proof.
  induction 1 as [|x l Hx Hl IH]; simpl.
  - apply reportsOnly_ret.
  - apply reportsOnly_bind; [done|].
    intros [b|]; [apply reportsOnly_ret|exact IH].
Qed.

Lemma reportsOnly_findModelFromNode this node :
  reportsOnly (findModelFromNode this node).
Proof.
  unfold findModelFromNode, findModelInHeritageType.
  repeat first
    [ apply reportsOnly_ret
    | apply reportsOnly_log
    | apply reportsOnly_bind; [|intros ?]
    | apply reportsOnly_firstFound; apply Forall_forall; intros ? _
    | case_match ].
Qed.

(** X21.  The resolver is a function of the node, the registry and the
    type checker alone: the model it returns and the diagnostics it
    appends are the same from every state, and it touches no usage
    record. *)
Theorem X21_resolver_state_independent this node :
  exists result diagnostics,
    forall st,
      findModelFromNode this node st
      = Return result (mkState (foundModels st) (console st ++ diagnostics)).
Proof. apply reportsOnly_findModelFromNode. Qed.

(** ** Repeated calls *)

Lemma applyOperations_idempotent ops r :
  applyOperations ops (applyOperations ops r) = applyOperations ops r.
Proof.
  unfold applyOperations. simpl.
  by rewrite <- !orb_assoc, !orb_diag.
Qed.

Lemma applyDelta_idempotent d r : applyDelta d (applyDelta d r) = applyDelta d r.
Proof.
  unfold applyDelta. simpl. by rewrite <- !orb_assoc, !orb_diag.
Qed.

(** A direct write on a store that a first such write has produced
    changes no record. *)
Lemma write_repeated model method st s :
  foundModels s = foundModels (finalState (processModelWriteMethod model method st)) ->
  forall k,
    Dict.get k (foundModels (finalState (processModelWriteMethod model method s)))
    = Dict.get k (foundModels s).
Proof.
  intros Hs k. revert Hs. unfold processModelWriteMethod.
  destruct (isSequelizeTypescriptGeneratedWriteMethod method) eqn:Hmix;
    [done|].
  destruct (Dict.get method SequelizeDefaultWriteMethodsRecord) as [ops|]
    eqn:Hget; [|done].
  assert (classifier_spec method = Some ops) as Hspec
    by by rewrite <- record_matches_classifier.
  pose proof (processModelWriteMethod_effect model method ops) as Heffect.
  unfold processModelWriteMethod in Heffect. rewrite Hmix, Hget in Heffect.
  destruct (Heffect st Hspec) as (st1 & -> & _ & H1).
  destruct (Heffect s Hspec) as (s1 & -> & _ & H2). simpl.
  intros Hs. rewrite H2. case_decide as Hk; [|done]. subst k.
  rewrite Hs, H1, decide_True by done. simpl.
  by rewrite applyOperations_idempotent.
Qed.

Lemma mixins_skip_or_effect this model method args :
  (forall st, exists st',
     processModelTypescriptMixins this model method args st = Return tt st' /\
     foundModels st' = foundModels st) \/
  (exists raw second rest association,
     args = Token StringLiteral raw :: second :: rest /\
     isSequelizeTypescriptGeneratedWriteMethod method = true /\
     Dict.get (literalText raw) (associations model) = Some association /\
     is_Some (availableModels this !! name (target association))).
Proof.
  unfold processModelTypescriptMixins.
  destruct (isSequelizeTypescriptGeneratedWriteMethod method) eqn:Hmix;
    simpl; [|left; intros st; by exists st].
  destruct args as [|first [|second rest]];
    [left; intros st; by exists st..|].
  destruct first as [[] raw| | |];
    try (left; intros st; by eexists).
  destruct (Dict.get (literalText raw) (associations model))
    as [association|] eqn:Hassoc; [|left; intros st; by eexists].
  destruct (availableModels this !! name (target association)) as [tm|]
    eqn:Htarget; [|left; intros st; by eexists].
  right. exists raw, second, rest, association. by repeat split.
Qed.

(** A mixin call on a store that a first such call has produced changes
    no record. *)
Lemma mixins_repeated this model method args st s :
  foundModels s
  = foundModels
      (finalState (processModelTypescriptMixins this model method args st)) ->
  forall k,
    Dict.get k
      (foundModels
         (finalState (processModelTypescriptMixins this model method args s)))
    = Dict.get k (foundModels s).
Proof.
  intros Hs k.
  destruct (mixins_skip_or_effect this model method args)
    as [Hskip|(raw & second & rest & association & -> & Hverb & Hassoc & Htarget)].
  - destruct (Hskip s) as (s' & -> & Hs'). simpl. by rewrite Hs'.
  - destruct (mixins_effect this model method raw second rest association
                st Hverb Hassoc Htarget) as (st1 & Hrun1 & H1).
    destruct (mixins_effect this model method raw second rest association
                s Hverb Hassoc Htarget) as (s1 & Hrun2 & H2).
    rewrite Hrun1 in Hs. rewrite Hrun2. simpl in *.
    assert (mixinBase this association (foundModels s) = foundModels s)
      as Hbase.
    { unfold mixinBase.
      assert (is_Some (Dict.get (name (target association)) (foundModels s)))
        as [rt Hrt].
      { rewrite Hs, H1. unfold mixinBase.
        destruct (get_ensureRecord_self (target association) (foundModels st))
          as (r0 & Hr0 & _).
        destruct (resolveThrough this association) as [J|];
          [rewrite get_ensureRecord|]; rewrite Hr0; by eexists. }
      rewrite (ensureRecord_present _ _ rt Hrt).
      destruct (resolveThrough this association) as [J|] eqn:HJ; [|done].
      assert (is_Some (Dict.get (name (self J)) (foundModels s)))
        as [rj Hrj].
      { rewrite Hs, H1. unfold mixinBase. rewrite HJ.
        destruct (get_ensureRecord_self (self J)
                    (ensureRecord (target association) (foundModels st)))
          as (r0 & -> & _). by eexists. }
      by rewrite (ensureRecord_present _ _ rj Hrj). }
    rewrite H2, Hbase, Hs, H1.
    destruct (Dict.get k (mixinBase this association (foundModels st)));
      [|done].
    simpl. by rewrite applyDelta_idempotent.
Qed.

(** X22.  Repeating a call expression changes nothing in the store: for
    every call expression, processing it on the state that a first
    processing of it has left gives every entity the record it already
    has (only diagnostics may be reported again). *)
Theorem X22_call_idempotent this expression args st k :
  let st1 := finalState (processCallExpression this expression args st) in
  Dict.get k
    (foundModels (finalState (processCallExpression this expression args st1)))
  = Dict.get k (foundModels st1).
Proof.
  cbv zeta.
  assert ((forall s, processCallExpression this expression args s
                     = Return tt s) \/
          (exists firstNode third,
             forall s,
               processCallExpression this expression args s =
               (let* model := findModelFromNode this firstNode in
                match model with
                | None => ret tt
                | Some model =>
                    let* _ := processModelWriteMethod model (getText third) in
                    processModelTypescriptMixins this model (getText third)
                      args
                end) s)) as [Hreject|(firstNode & third & Hclassified)].
  { unfold processCallExpression.
    destruct (getFirstToken expression) as [firstNode|]; [|by left].
    case_bool_decide; [by left|].
    destruct (getChildAt expression 2) as [third|]; [|by left].
    destruct (_ || _); [by left|]. right. by exists firstNode, third. }
  { by rewrite !Hreject. }
  rewrite !Hclassified.
  destruct (reportsOnly_findModelFromNode this firstNode)
    as (result & diagnostics & Hresolve).
  unfold bind. rewrite !Hresolve.
  destruct result as [model|]; [|reflexivity].
  set (method := getText third).
  assert (forall s s',
    foundModels s'
    = foundModels
        (finalState
           ((let* _ := processModelWriteMethod model method in
             processModelTypescriptMixins this model method args) s)) ->
    Dict.get k
      (foundModels
         (finalState
            ((let* _ := processModelWriteMethod model method in
              processModelTypescriptMixins this model method args) s')))
    = Dict.get k (foundModels s')) as Hrepeat.
  { intros s s'. unfold bind.
    destruct (isSequelizeTypescriptGeneratedWriteMethod method) eqn:Hmix.
    - assert (forall s0, processModelWriteMethod model method s0
                         = Return tt s0) as Hwrite.
      { intros s0. unfold processModelWriteMethod. by rewrite Hmix. }
      rewrite !Hwrite. intros Hs'.
      by apply (mixins_repeated this model method args s s').
    - pose proof (neverThrows_processModelWriteMethod model method) as Hnever.
      destruct (processModelWriteMethod model method s) as [[] s1|] eqn:Hrun1;
        [|by specialize (Hnever s); rewrite Hrun1 in Hnever].
      destruct (processModelWriteMethod model method s') as [[] s2|] eqn:Hrun2;
        [|by specialize (Hnever s'); rewrite Hrun2 in Hnever].
      rewrite !mixins_ignore_direct_method by done. simpl.
      intros Hs'. pose proof (write_repeated model method s s') as Hw.
      rewrite Hrun1, Hrun2 in Hw. by apply Hw. }
  set (s0 := mkState (foundModels st) (console st ++ diagnostics)).
  set (s1 := finalState
               ((let* _ := processModelWriteMethod model method in
                 processModelTypescriptMixins this model method args) s0)).
  exact (Hrepeat s0 (mkState (foundModels s1) (console s1 ++ diagnostics))
           eq_refl).
Qed.
